(** * Vacation interval consolidation: a model of the services and repositories

    The development follows [app/schema/vacation.py], [app/model/vacation.py],
    [app/repository/vacation.py], [app/services/vacation.py] and
    [app/api/routes/vacation.py].

    Conventions of the embedding.
    - A [date] is the number of days since 1999-12-31 in [Z], so that day 1
      is 2000-01-01; [timedelta(days=1)] is [1].  Python's [date] ranges from
      [date_min] (0001-01-01) to [date_max] (9999-12-31), and date arithmetic
      that leaves this range raises [OverflowError].
    - A primary key ([UUID]) is a natural number.  A table is a finite map
      from primary keys to column values; an ORM instance is the pair of its
      primary key and its column values.
    - The database session is threaded explicitly.  Every repository
      operation commits on its own, so a raised exception keeps the writes
      made before it. *)

From Stdlib Require Import ZArith Lia.
From stdpp Require Import gmap strings list sorting fin_maps.

Local Open Scope Z_scope.

Abbreviation date := Z (only parsing).
Abbreviation UUID := nat (only parsing).

(** [date.min] and [date.max]: the proleptic ordinals 1 and 3652059, counted
    from 1999-12-31, whose ordinal is 730119. *)
Definition date_min : date := 1 - 730119.
Definition date_max : date := 3652059 - 730119.

(** The dates [d] for which both [d - timedelta(days=1)], taken of the start,
    and [d + timedelta(days=1)], taken of the end, are dates. *)
Definition in_range (start_date end_date : date) : Prop :=
  date_min < start_date ∧ end_date < date_max.

Global Instance in_range_dec start_date end_date : Decision (in_range start_date end_date).
Proof. unfold in_range. apply _. Defined.

(** ** Schemas and models *)

(** [Literal[0, 1]] of the schema, [type IN (0, 1)] of the table. *)
Inductive VacationType := Unpaid | Paid.

Global Instance VacationType_eq_dec : EqDecision VacationType.
Proof. solve_decision. Defined.

Definition type_code (t : VacationType) : Z :=
  match t with Unpaid => 0 | Paid => 1 end.

Module VacationBase.
Record t := mk { start_date : date; end_date : date; type : VacationType }.

(** [validate_dates]: a date is truthy, so the validator rejects exactly
    [end_date < start_date]. *)
Definition validate_dates (start_date end_date : date) : bool :=
  negb (end_date <? start_date).

(** What every instance built from a request satisfies. *)
Definition valid (v : t) : Prop := start_date v ≤ end_date v.
End VacationBase.

Module VacationUpdate.
(** Each field is [Optional] with default [None].  The outer option says
    whether the field was set by the caller ([exclude_unset] looks at it),
    the inner one whether the value is [None]. *)
Record t := mk {
  start_date : option (option date);
  end_date : option (option date);
  type : option (option VacationType)
}.

(** Attribute access: an unset field reads as its default [None]. *)
Definition attr {A} (f : option (option A)) : option A := mjoin f.

Definition validate_dates (v : t) : bool :=
  match attr (start_date v), attr (end_date v) with
  | Some s, Some e => negb (e <? s)
  | _, _ => true
  end.
End VacationUpdate.

Module VacationModel.
(** Columns of table [vacation] besides the primary key. *)
Record t := mk {
  employee_id : UUID;
  type : VacationType;
  start_date : date;
  end_date : date
}.

Global Instance eq_dec : EqDecision t.
Proof. solve_decision. Defined.
End VacationModel.

Module EmployeeModel.
Record t := mk { first_name : string; last_name : string }.
End EmployeeModel.

(** An ORM instance: primary key and column values. *)
Abbreviation Vacation := (UUID * VacationModel.t)%type (only parsing).
Abbreviation Employee := (UUID * EmployeeModel.t)%type (only parsing).

Definition vac_id (v : Vacation) : UUID := v.1.
Definition vac_start (v : Vacation) : date := VacationModel.start_date v.2.
Definition vac_end (v : Vacation) : date := VacationModel.end_date v.2.

(** ** The database behind a session *)

Record Session := mkSession {
  employees : gmap UUID EmployeeModel.t;
  vacations : gmap UUID VacationModel.t;
  next_uuid : UUID
}.

Definition set_vacations (s : Session) (m : gmap UUID VacationModel.t) : Session :=
  {| employees := employees s; vacations := m; next_uuid := next_uuid s |}.

(** ** Exceptions and the session monad *)

Inductive exn :=
| ValueError (msg : string)
| TypeError (msg : string)
| ArgumentError
| IntegrityError
| ValidationError
| OverflowError.

Inductive result (A : Type) :=
| Ok (a : A)
| Raise (e : exn).
Arguments Ok {A} a.
Arguments Raise {A} e.

Definition SessionM (A : Type) : Type := Session → result A * Session.

Definition ret {A} (a : A) : SessionM A := λ s, (Ok a, s).
Definition raise {A} (e : exn) : SessionM A := λ s, (Raise e, s).
Definition bind {A B} (c : SessionM A) (k : A → SessionM B) : SessionM B :=
  λ s, match c s with
       | (Ok a, s') => k a s'
       | (Raise e, s') => (Raise e, s')
       end.

Notation "'let*' x := c 'in' k" := (bind c (λ x, k))
  (at level 10, x pattern, c at level 100, k at level 200).

(** [for x in xs: body x] *)
Fixpoint for_each {A} (xs : list A) (body : A → SessionM unit) : SessionM unit :=
  match xs with
  | [] => ret tt
  | x :: xs' => let* _ := body x in for_each xs' body
  end.

(** [VacationBase(type=..., start_date=..., end_date=...)]: the constructor
    runs the validator. *)
Definition VacationBase_init (start_date end_date : date) (type : VacationType)
    : SessionM VacationBase.t :=
  if VacationBase.validate_dates start_date end_date
  then ret (VacationBase.mk start_date end_date type)
  else raise ValidationError.

(** The error kinds of the specification, as the service raises them. *)
Definition OwnerNotFound : exn := ValueError "Employee not found".
Definition IntervalNotFound : exn := ValueError "Vacation not found".

(** ** Repositories *)

(** The four alternatives of [or_] in [get_overlapping_or_contiguous], for
    a row [[s, e]] against the queried range [[start_date, end_date]]. *)
Definition overlapping_or_contiguous (start_date end_date s e : date) : bool :=
  (* right overlap *)
  (bool_decide (s ≤ end_date) && bool_decide (start_date ≤ e))
  (* left overlap *)
  || (bool_decide (start_date ≤ s) && bool_decide (s ≤ end_date))
  || bool_decide (e = start_date - 1)
  || bool_decide (s = end_date + 1).

(** [ORDER BY start_date]: ascending. *)
Definition start_date_le (v w : Vacation) : Prop := vac_start v ≤ vac_start w.

Global Instance start_date_le_dec : RelDecision start_date_le.
Proof. intros v w. unfold start_date_le. apply _. Defined.

Module VacationRepository.

(** The rows selected by the [filter] clause.  A comparison of the
    non-nullable column [type] with [None] is [IS NULL] and selects
    nothing. *)
Definition selected (employee_id : UUID) (vacation_type : option VacationType)
    (start_date end_date : date) (v : Vacation) : bool :=
  bool_decide (VacationModel.employee_id v.2 = employee_id)
  && bool_decide (Some (VacationModel.type v.2) = vacation_type)
  && overlapping_or_contiguous start_date end_date (vac_start v) (vac_end v).

(** The dates arrive as Python values: the service passes [None] for an
    unset field of a [VacationUpdate].  The filter is built before any query
    is sent: an ordering comparison of a column with [None] raises first;
    then [start_date - timedelta(days=1)] raises [OverflowError] at
    [date.min] and [end_date + timedelta(days=1)] raises it at [date.max].
    [ORDER BY start_date] leaves the order of rows with equal start dates to
    the database; the model takes the order of [merge_sort], which is the
    only order when no two selected rows start on the same day. *)
Definition get_overlapping_or_contiguous (employee_id : UUID)
    (vacation_type : option VacationType) (start_date end_date : option date)
    : SessionM (list Vacation) :=
  λ session,
    match start_date, end_date with
    | Some sd, Some ed =>
        if decide (in_range sd ed) then
          (Ok (merge_sort start_date_le
                 (filter (λ v, selected employee_id vacation_type sd ed v = true)
                         (map_to_list (vacations session)))),
           session)
        else (Raise OverflowError, session)
    | _, _ => (Raise ArgumentError, session)
    end.

(** [self._query(session)] of [BaseRepository] selects from the table. *)
Definition get_by_id (vacation_id : UUID) : SessionM (option Vacation) :=
  λ session, (Ok (pair vacation_id <$> vacations session !! vacation_id), session).

(** Modelled from the spec: [BaseRepository.get] of [app/repository/base.py]
    is the store's point lookup [findById(id) -> Interval?]. *)
Definition get (id : UUID) : SessionM (option Vacation) :=
  λ session, (Ok (pair id <$> vacations session !! id), session).

Definition get_by_employee (employee_id : UUID) : SessionM (list Vacation) :=
  λ session,
    (Ok (filter (λ v : Vacation, VacationModel.employee_id v.2 = employee_id)
                (map_to_list (vacations session))),
     session).

(** Modelled from the spec: the primary key comes from [BaseModel] of
    [app/model/base.py]; it is an opaque unique identifier assigned at
    creation, here the next unused key of the session.  The column
    [employee_id] is a foreign key to [employee.id]: the commit raises
    [IntegrityError], and nothing is stored, when no employee has that id. *)
Definition create (obj_in : VacationBase.t) (employee_id : UUID) : SessionM Vacation :=
  λ session,
    let db_obj :=
      VacationModel.mk employee_id (VacationBase.type obj_in)
        (VacationBase.start_date obj_in) (VacationBase.end_date obj_in) in
    match employees session !! employee_id with
    | Some _ =>
        (Ok (next_uuid session, db_obj),
         {| employees := employees session;
            vacations := <[next_uuid session := db_obj]> (vacations session);
            next_uuid := S (next_uuid session) |})
    | None => (Raise IntegrityError, session)
    end.

Definition delete (vacation_id : UUID) : SessionM (option Vacation) :=
  let* vacation := get_by_id vacation_id in
  match vacation with
  | Some v =>
      λ session, (Ok (Some v),
                  set_vacations session (base.delete vacation_id (vacations session)))
  | None => ret None
  end.

(** [setattr] of every key of [obj_in] that is present; all three columns
    are [nullable=False], so a present [None] fails the commit.  [obj_in]
    ranges over the dictionaries the service passes, whose keys are among
    [start_date], [end_date] and [type]; other dictionaries are outside the
    model. *)
Definition setattrs (obj_in : VacationUpdate.t) (row : VacationModel.t)
    : option VacationModel.t :=
  let field {A} (f : option (option A)) (old : A) : option A :=
    match f with
    | None => Some old
    | Some v => v
    end in
  sd ← field (VacationUpdate.start_date obj_in) (VacationModel.start_date row);
  ed ← field (VacationUpdate.end_date obj_in) (VacationModel.end_date row);
  ty ← field (VacationUpdate.type obj_in) (VacationModel.type row);
  Some (VacationModel.mk (VacationModel.employee_id row) ty sd ed).

Definition patch (vacation_id : UUID) (obj_in : VacationUpdate.t)
    : SessionM (option Vacation) :=
  let* vacation := get_by_id vacation_id in
  match vacation with
  | Some v =>
      λ session,
        match setattrs obj_in v.2 with
        | Some row =>
            (Ok (Some (vacation_id, row)),
             set_vacations session (<[vacation_id := row]> (vacations session)))
        | None => (Raise IntegrityError, session)
        end
  | None => ret None
  end.

Section Search.
(** PostgreSQL's [ILIKE] on a column value and a pattern. *)
Variable ilike : string → string → bool.

(** [if first_name:] holds for a non-empty string. *)
Definition truthy (name : option string) : bool :=
  match name with
  | Some n => negb (String.eqb n EmptyString)
  | None => false
  end.

Definition name_filter (name : option string) (column : string) : bool :=
  match name with
  | Some n => if truthy name then ilike column (String.append "%" (String.append n "%")) else true
  | None => true
  end.

(** The conjunction of the filters that were appended.  A date and a
    UUID are always truthy; [vacation_type] is any integer. *)
Definition matches (session : Session) (start_date end_date : option date)
    (vacation_type : option Z) (employee_id : option UUID)
    (first_name last_name : option string) (v : Vacation) : bool :=
  from_option (λ d, bool_decide (vac_start v = d)) true start_date
  && from_option (λ d, bool_decide (vac_end v = d)) true end_date
  && from_option (λ t, bool_decide (type_code (VacationModel.type v.2) = t)) true vacation_type
  && from_option (λ e, bool_decide (VacationModel.employee_id v.2 = e)) true employee_id
  && (if truthy first_name || truthy last_name then
        (* join EmployeeModel *)
        match employees session !! VacationModel.employee_id v.2 with
        | Some employee =>
            name_filter first_name (EmployeeModel.first_name employee)
            && name_filter last_name (EmployeeModel.last_name employee)
        | None => false
        end
      else true).

Definition search (start_date end_date : option date) (vacation_type : option Z)
    (employee_id : option UUID) (first_name last_name : option string)
    : SessionM (list Vacation) :=
  λ session,
    (Ok (filter (λ v, matches session start_date end_date vacation_type
                        employee_id first_name last_name v = true)
                (map_to_list (vacations session))),
     session).
End Search.

End VacationRepository.

Module EmployeeRepository.
(** Modelled from the spec: [BaseRepository.get] of [app/repository/base.py]
    is the directory's lookup [get(employeeId) -> Employee?]. *)
Definition get (id : UUID) : SessionM (option Employee) :=
  λ session, (Ok (pair id <$> employees session !! id), session).

(** [create] of [app/repository/employee.py]; the primary key is modelled as
    for a vacation. *)
Definition create (obj_in : EmployeeModel.t) : SessionM Employee :=
  λ session,
    (Ok (next_uuid session, obj_in),
     {| employees := <[next_uuid session := obj_in]> (employees session);
        vacations := vacations session;
        next_uuid := S (next_uuid session) |}).
End EmployeeRepository.

(** [app/services/employee.py] *)
Module EmployeeService.
Definition create_employee (employee_data : EmployeeModel.t) : SessionM Employee :=
  EmployeeRepository.create employee_data.

Definition get_employee (employee_id : UUID) : SessionM (option Employee) :=
  EmployeeRepository.get employee_id.
End EmployeeService.

(** ** Services *)

(** Lines 65-66 and 143-144 of the service: the bounds of the merged
    vacation, from the first and the last element of the query result.
    [None] stands for an empty (falsy) result list. *)
Definition merge_bounds (start_date end_date : date)
    (existing_vacations : list Vacation) : option (date * date) :=
  match head existing_vacations, last existing_vacations with
  | Some first, Some final =>
      Some (Z.min start_date (vac_start first), Z.max end_date (vac_end final))
  | _, _ => None
  end.

Module VacationService.

Definition __get_employee (employee_id : UUID) : SessionM Employee :=
  let* employee := EmployeeRepository.get employee_id in
  match employee with
  | None => raise (ValueError "Employee not found")
  | Some employee => ret employee
  end.

(** The relationship [employee.vacations]. *)
Definition employee_vacations (employee : Employee) : SessionM (list Vacation) :=
  VacationRepository.get_by_employee employee.1.

Definition create_vacation (employee_id : UUID) (vacation_data : VacationBase.t)
    : SessionM Vacation :=
  let* employee := __get_employee employee_id in
  let* existing_vacations :=
    VacationRepository.get_overlapping_or_contiguous employee_id
      (Some (VacationBase.type vacation_data))
      (Some (VacationBase.start_date vacation_data))
      (Some (VacationBase.end_date vacation_data)) in
  match merge_bounds (VacationBase.start_date vacation_data)
          (VacationBase.end_date vacation_data) existing_vacations with
  | Some (new_start, new_end) =>
      let* _ := for_each existing_vacations (λ vac,
                  let* _ := VacationRepository.delete (vac_id vac) in ret tt) in
      let* vacation :=
        VacationBase_init new_start new_end (VacationBase.type vacation_data) in
      VacationRepository.create vacation employee.1
  | None =>
      VacationRepository.create vacation_data employee.1
  end.

Definition get_vacations_by_employee_id (employee_id : UUID) : SessionM (list Vacation) :=
  let* employee := __get_employee employee_id in
  employee_vacations employee.

Definition update_vacation (employee_id vacation_id : UUID)
    (vacation_data : VacationUpdate.t) : SessionM (option Vacation) :=
  let* employee := __get_employee employee_id in
  let* vacations := employee_vacations employee in
  let vacation := filter (λ v, vac_id v = vacation_id) vacations in
  match vacation with
  | [] => raise (ValueError "Vacation not found")
  | _ :: _ =>
      (* dict(exclude_unset=True): the set fields, as they are *)
      let update_data := vacation_data in
      let* existing_vacations :=
        VacationRepository.get_overlapping_or_contiguous employee_id
          (VacationUpdate.attr (VacationUpdate.type vacation_data))
          (VacationUpdate.attr (VacationUpdate.start_date vacation_data))
          (VacationUpdate.attr (VacationUpdate.end_date vacation_data)) in
      match existing_vacations with
      | _ :: _ =>
          match VacationUpdate.attr (VacationUpdate.start_date vacation_data),
                VacationUpdate.attr (VacationUpdate.end_date vacation_data) with
          | Some start_date, Some end_date =>
              match merge_bounds start_date end_date existing_vacations with
              | Some (new_start, new_end) =>
                  let* _ := for_each existing_vacations (λ vac,
                              let* _ := VacationRepository.delete (vac_id vac) in ret tt) in
                  let update_data :=
                    VacationUpdate.mk (Some (Some new_start)) (Some (Some new_end))
                      (VacationUpdate.type update_data) in
                  VacationRepository.patch vacation_id update_data
              | None =>
                  (* not reached: the list is not empty *)
                  VacationRepository.patch vacation_id update_data
              end
          | _, _ =>
              (* not reached: the query has raised; [min(None, date)] *)
              raise (TypeError "'<' not supported with NoneType")
          end
      | [] => VacationRepository.patch vacation_id update_data
      end
  end.

Definition delete_vacation (employee_id vacation_id : UUID) : SessionM unit :=
  let* employee := __get_employee employee_id in
  let* vacation := VacationRepository.get vacation_id in
  match vacation with
  | None => raise (ValueError "Vacation not found")
  | Some _ =>
      let* _ := VacationRepository.delete vacation_id in ret tt
  end.

(** Parameters of [search_vacations] after [self]; none has a default. *)
Definition search_vacations_params : list string :=
  ["session"; "start_date"; "end_date"; "type"; "employee_id"; "first_name";
   "last_name"]%string.

Definition search_vacations (ilike : string → string → bool)
    (start_date end_date : option date) (type : option Z)
    (employee_id : option UUID) (first_name last_name : option string)
    : SessionM (list Vacation) :=
  VacationRepository.search ilike start_date end_date type employee_id
    first_name last_name.

End VacationService.

(** ** Routes *)

(** Python values that travel as keyword arguments. *)
Inductive value :=
| VNone
| VDate (d : date)
| VInt (n : Z)
| VUUID (u : UUID)
| VStr (s : string)
| VSession.

Definition of_optional {A} (inj : A → value) (o : option A) : value :=
  from_option inj VNone o.

Definition as_date (v : value) : option date :=
  match v with VDate d => Some d | _ => None end.
Definition as_int (v : value) : option Z :=
  match v with VInt n => Some n | _ => None end.
Definition as_uuid (v : value) : option UUID :=
  match v with VUUID u => Some u | _ => None end.
Definition as_str (v : value) : option string :=
  match v with VStr s => Some s | _ => None end.

(** A call [f(k1=v1, ..., kn=vn)] of a function whose parameters are all
    named, without defaults and without [**kwargs]: a keyword that names no
    parameter raises [TypeError], and so does a parameter left without
    argument; otherwise the body runs with the arguments bound. *)
Definition call_with_keywords {A} (name : string) (params : list string)
    (kwargs : list (string * value)) (body : (string → value) → SessionM A) : SessionM A :=
  match list_find (λ kw : string * value, kw.1 ∉ params) kwargs with
  | Some (_, (k, _)) =>
      raise (TypeError (String.append name
               (String.append "() got an unexpected keyword argument '"
                  (String.append k "'"))))
  | None =>
      match list_find (λ p : string, p ∉ kwargs.*1) params with
      | Some (_, p) =>
          raise (TypeError (String.append name
                   (String.append "() missing 1 required positional argument: '"
                      (String.append p "'"))))
      | None =>
          body (λ p, from_option snd VNone
                       (snd <$> list_find (λ kw : string * value, kw.1 = p) kwargs))
      end
  end.

Module VacationRoutes.

(** [GET /]: the handler of [app/api/routes/vacation.py]. *)
Definition search_vacations (ilike : string → string → bool)
    (start_date end_date : option date) (type : option Z)
    (employee_id : option UUID) (first_name last_name : option string)
    : SessionM (list Vacation) :=
  call_with_keywords "_VacationService.search_vacations"
    VacationService.search_vacations_params
    [("session", VSession);
     ("start_date", of_optional VDate start_date);
     ("end_date", of_optional VDate end_date);
     ("vacation_type", of_optional VInt type);
     ("employee_id", of_optional VUUID employee_id);
     ("first_name", of_optional VStr first_name);
     ("last_name", of_optional VStr last_name)]%string
    (λ args,
       VacationService.search_vacations ilike
         (as_date (args "start_date"%string)) (as_date (args "end_date"%string))
         (as_int (args "type"%string)) (as_uuid (args "employee_id"%string))
         (as_str (args "first_name"%string)) (as_str (args "last_name"%string))).

End VacationRoutes.

(** ** Routes of the employee's vacations *)

(** What leaves a handler of [app/api/routes/employee.py]: an [HTTPException]
    the handler raises itself, or an exception of the service that no
    [except] clause catches. *)
Inductive handler_exn :=
| HTTPException (status_code : Z) (detail : string)
| Uncaught (e : exn).

(** The value a handler returns, before the framework serialises it, or what
    it raises. *)
Inductive response (A : Type) :=
| Returned (a : A)
| Failed (e : handler_exn).
Arguments Returned {A} a.
Arguments Failed {A} e.

Module EmployeeRoutes.

Section Handlers.
(** [str(e)] for the validation error of the schema library, which is a
    subclass of [ValueError]. *)
Variable validation_text : string.

(** [try: return ... except ValueError as e:
       raise HTTPException(status_code=404, detail=str(e))] *)
Definition except_ValueError {A} (c : SessionM A) : Session → response A * Session :=
  λ session,
    match c session with
    | (Ok a, session') => (Returned a, session')
    | (Raise (ValueError msg), session') => (Failed (HTTPException 404 msg), session')
    | (Raise ValidationError, session') =>
        (Failed (HTTPException 404 validation_text), session')
    | (Raise e, session') => (Failed (Uncaught e), session')
    end.

(** A handler body without [try]: whatever the service raises leaves the
    handler. *)
Definition no_except {A} (c : SessionM A) : Session → response A * Session :=
  λ session,
    match c session with
    | (Ok a, session') => (Returned a, session')
    | (Raise e, session') => (Failed (Uncaught e), session')
    end.

(** [POST /{employee_id}/vacations] *)
Definition create_vacation (employee_id : UUID) (vacation_data : VacationBase.t)
    : Session → response Vacation * Session :=
  except_ValueError (VacationService.create_vacation employee_id vacation_data).

(** [GET /{employee_id}/vacations] *)
Definition get_vacations (employee_id : UUID)
    : Session → response (list Vacation) * Session :=
  except_ValueError (VacationService.get_vacations_by_employee_id employee_id).
End Handlers.

(** [PATCH /{employee_id}/vacations/{vacation_id}] *)
Definition patch_vacation (employee_id vacation_id : UUID)
    (vacation_data : VacationUpdate.t) : Session → response (option Vacation) * Session :=
  no_except (VacationService.update_vacation employee_id vacation_id vacation_data).

(** [POST /] *)
Definition create_employee (employee : EmployeeModel.t)
    : Session → response Employee * Session :=
  no_except (EmployeeService.create_employee employee).

(** [GET /{employee_id}]: [if not result: raise HTTPException(404, ...)] *)
Definition get_employee (employee_id : UUID) : Session → response Employee * Session :=
  λ session,
    match EmployeeService.get_employee employee_id session with
    | (Ok (Some result), session') => (Returned result, session')
    | (Ok None, session') =>
        (Failed (HTTPException 404 "Employee not found"), session')
    | (Raise e, session') => (Failed (Uncaught e), session')
    end.

(** [DELETE /{employee_id}/vacations/{vacation_id}]: the handler returns
    nothing. *)
Definition delete_vacation (employee_id vacation_id : UUID)
    : Session → response unit * Session :=
  no_except (VacationService.delete_vacation employee_id vacation_id).

End EmployeeRoutes.

(** ** Sample stores *)

Definition employee_7 : EmployeeModel.t := EmployeeModel.mk "Ada" "Work".
Definition employee_8 : EmployeeModel.t := EmployeeModel.mk "Bob" "Life".

(** Two employees, no vacation yet. *)
Definition empty_store : Session :=
  {| employees := {[ 7%nat := employee_7; 8%nat := employee_8 ]};
     vacations := ∅;
     next_uuid := 0 |}.

(** Employee 7 has Paid [[1, 4]] and Paid [[20, 24]] and Unpaid [[6, 8]];
    employee 8 has Paid [[5, 9]]. *)
Definition sample_store : Session :=
  {| employees := {[ 7%nat := employee_7; 8%nat := employee_8 ]};
     vacations := {[ 0%nat := VacationModel.mk 7 Paid 20 24;
                     1%nat := VacationModel.mk 7 Paid 1 4;
                     2%nat := VacationModel.mk 7 Unpaid 6 8;
                     3%nat := VacationModel.mk 8 Paid 5 9 ]};
     next_uuid := 4 |}.

(** Employee 7 has Paid [[1, 4]] and Unpaid [[6, 8]]; employee 8 has Paid
    [[5, 9]]. *)
Definition store_1_4 : Session :=
  {| employees := {[ 7%nat := employee_7; 8%nat := employee_8 ]};
     vacations := {[ 0%nat := VacationModel.mk 7 Paid 1 4;
                     1%nat := VacationModel.mk 7 Unpaid 6 8;
                     2%nat := VacationModel.mk 8 Paid 5 9 ]};
     next_uuid := 3 |}.

(** Employee 7 has Paid [[1, 3]] and Paid [[6, 8]]. *)
Definition two_paid_store : Session :=
  {| employees := {[ 7%nat := employee_7; 8%nat := employee_8 ]};
     vacations := {[ 0%nat := VacationModel.mk 7 Paid 1 3;
                     1%nat := VacationModel.mk 7 Paid 6 8 ]};
     next_uuid := 2 |}.

(** A [VacationUpdate] with every field set to a value. *)
Definition full_update (start_date end_date : date) (t : VacationType)
    : VacationUpdate.t :=
  VacationUpdate.mk (Some (Some start_date)) (Some (Some end_date)) (Some (Some t)).

(** ** Properties of a store *)

(** The specification's mergeable predicate (section 4.1), for a range
    [[a1, a2]] and a range [[b1, b2]]: range overlap, left adjacency, right
    adjacency. *)
Definition mergeable (a1 a2 b1 b2 : date) : Prop :=
  (a1 ≤ b2 ∧ b1 ≤ a2) ∨ b2 = a1 - 1 ∨ a2 = b1 - 1.

Global Instance mergeable_dec a1 a2 b1 b2 : Decision (mergeable a1 a2 b1 b2).
Proof. unfold mergeable. apply _. Defined.

(** Data-model invariant of section 3: [startDate <= endDate]. *)
Definition well_formed (v : Vacation) : Prop := vac_start v ≤ vac_end v.

Definition store_well_formed (session : Session) : Prop :=
  map_Forall (λ i row, well_formed (i, row)) (vacations session).

(** Primary keys handed out so far are below [next_uuid]. *)
Definition keys_fresh (session : Session) : Prop :=
  map_Forall (λ i _, (i < next_uuid session)%nat) (vacations session).

Definition same_owner_and_type (v w : Vacation) : Prop :=
  VacationModel.employee_id v.2 = VacationModel.employee_id w.2
  ∧ VacationModel.type v.2 = VacationModel.type w.2.

(** The antichain invariant of section 3: two distinct stored vacations of
    one employee and one type neither overlap nor are one day apart. *)
Definition antichain (session : Session) : Prop :=
  map_Forall (λ i v,
    map_Forall (λ j w,
      i ≠ j → same_owner_and_type (i, v) (j, w) →
      ¬ mergeable (VacationModel.start_date v) (VacationModel.end_date v)
                  (VacationModel.start_date w) (VacationModel.end_date w))
      (vacations session))
    (vacations session).

(** The rows removed by the loop [for vac in existing_vacations: delete]. *)
Definition delete_all (l : list Vacation) (m : gmap UUID VacationModel.t)
    : gmap UUID VacationModel.t :=
  foldl (λ m v, base.delete (vac_id v) m) m l.

(** The robust variant of the specification (sections 4.3 and 9): reduce
    [min] over the starts and [max] over the ends of the whole mergeable set
    and the candidate. *)
Definition robust_bounds (start_date end_date : date)
    (existing_vacations : list Vacation) : date * date :=
  (foldr Z.min start_date (vac_start <$> existing_vacations),
   foldr Z.max end_date (vac_end <$> existing_vacations)).

(** No two elements of the list, at distinct positions, are mergeable. *)
Definition pairwise_unmergeable (l : list Vacation) : Prop :=
  ∀ i j v w, l !! i = Some v → l !! j = Some w → i ≠ j →
    ¬ mergeable (vac_start v) (vac_end v) (vac_start w) (vac_end w).

(** The [(start, end)] ranges stored for an employee and a type. *)
Definition ranges (session : Session) (employee_id : UUID) (t : VacationType)
    : list (date * date) :=
  (λ v, (vac_start v, vac_end v)) <$>
    filter (λ v : Vacation, VacationModel.employee_id v.2 = employee_id
                            ∧ VacationModel.type v.2 = t)
           (map_to_list (vacations session)).

Global Instance store_well_formed_dec session : Decision (store_well_formed session).
Proof. unfold store_well_formed, well_formed. apply _. Defined.

Global Instance keys_fresh_dec session : Decision (keys_fresh session).
Proof. unfold keys_fresh. apply _. Defined.

Global Instance antichain_dec session : Decision (antichain session).
Proof. unfold antichain, same_owner_and_type. apply _. Defined.

(** The mergeable set the service works on: the result of the query for a
    candidate. *)
Definition mergeable_set (session : Session) (employee_id : UUID)
    (vacation_data : VacationBase.t) : list Vacation :=
  merge_sort start_date_le
    (filter (λ v, VacationRepository.selected employee_id
                    (Some (VacationBase.type vacation_data))
                    (VacationBase.start_date vacation_data)
                    (VacationBase.end_date vacation_data) v = true)
            (map_to_list (vacations session))).

(** A computation keeps a property of the session, whether it returns or
    raises. *)
Definition preserves (P : Session → Prop) {A} (c : SessionM A) : Prop :=
  ∀ s r s', P s → c s = (r, s') → P s'.

Definition store_ok (session : Session) : Prop :=
  store_well_formed session ∧ keys_fresh session.

(** Every stored start date is after [date.min] and every stored end date
    is before [date.max]. *)
Definition store_in_range (session : Session) : Prop :=
  map_Forall (λ _ row, in_range (VacationModel.start_date row)
                         (VacationModel.end_date row))
    (vacations session).

Global Instance store_in_range_dec session : Decision (store_in_range session).
Proof. unfold store_in_range. apply _. Defined.

(** One call of the service by the routes, on validated input. *)
Inductive step : Session → Session → Prop :=
| step_create employee_id vacation_data s r s' :
    VacationBase.valid vacation_data →
    VacationService.create_vacation employee_id vacation_data s = (r, s') →
    step s s'
| step_update employee_id vacation_id vacation_data s r s' :
    VacationUpdate.validate_dates vacation_data = true →
    VacationService.update_vacation employee_id vacation_id vacation_data s = (r, s') →
    step s s'
| step_delete employee_id vacation_id s r s' :
    VacationService.delete_vacation employee_id vacation_id s = (r, s') →
    step s s'.

(** The stores the service can build, starting without vacations. *)
Definition reachable (session : Session) : Prop :=
  ∃ s0, vacations s0 = ∅ ∧ rtc step s0 session.

(** One call of the service where an update supplies all three fields. *)
Inductive full_step : Session → Session → Prop :=
| full_step_create employee_id vacation_data s r s' :
    VacationBase.valid vacation_data →
    VacationService.create_vacation employee_id vacation_data s = (r, s') →
    full_step s s'
| full_step_update employee_id vacation_id start_date end_date t s r s' :
    start_date ≤ end_date →
    VacationService.update_vacation employee_id vacation_id
      (full_update start_date end_date t) s = (r, s') →
    full_step s s'
| full_step_delete employee_id vacation_id s r s' :
    VacationService.delete_vacation employee_id vacation_id s = (r, s') →
    full_step s s'.

(** The days of a vacation. *)
Definition covers (v : Vacation) (d : date) : Prop := vac_start v ≤ d ≤ vac_end v.

(** ** Basic facts *)

Global Instance start_date_le_total : Total start_date_le.
Proof. intros v w. unfold start_date_le. lia. Qed.

Global Instance start_date_le_trans : Transitive start_date_le.
Proof. intros u v w. unfold start_date_le. lia. Qed.

Lemma set_vacations_id session : set_vacations session (vacations session) = session.
Proof. by destruct session. Qed.

Lemma overlapping_or_contiguous_spec start_date end_date s e :
  overlapping_or_contiguous start_date end_date s e = true ↔
  (s ≤ end_date ∧ start_date ≤ e) ∨ (start_date ≤ s ∧ s ≤ end_date)
  ∨ e = start_date - 1 ∨ s = end_date + 1.
Proof.
  unfold overlapping_or_contiguous.
  rewrite !orb_true_iff, !andb_true_iff, !bool_decide_eq_true. tauto.
Qed.

(** On a well-formed row the "left overlap" alternative is subsumed, and the
    filter is the specification's predicate. *)
Lemma overlapping_or_contiguous_mergeable start_date end_date s e :
  s ≤ e →
  overlapping_or_contiguous start_date end_date s e = true ↔
  mergeable start_date end_date s e.
Proof.
  intros Hwf. rewrite overlapping_or_contiguous_spec. unfold mergeable. lia.
Qed.

(** A row with [start_date > end_date] can pass the "left overlap"
    alternative without being mergeable in the specification's sense. *)
Example left_overlap_on_ill_formed_row :
  overlapping_or_contiguous 3 7 5 0 = true ∧ ¬ mergeable 3 7 5 0.
Proof. split; [reflexivity|]. unfold mergeable. lia. Qed.

Lemma lookup_delete_all l m i :
  delete_all l m !! i = if decide (i ∈ l.*1) then None else m !! i.
Proof.
  revert m. induction l as [|v l IH]; intros m.
  - simpl. destruct (decide (i ∈ [])) as [H|H]; [by apply elem_of_nil in H | done].
  - change (delete_all (v :: l) m) with (delete_all l (base.delete (vac_id v) m)).
    rewrite IH, fmap_cons. unfold vac_id.
    destruct (decide (i ∈ l.*1)) as [Hl|Hl];
      destruct (decide (i ∈ v.1 :: l.*1)) as [Hvl|Hvl]; try done.
    + exfalso. apply Hvl. by right.
    + apply elem_of_cons in Hvl as [->|?]; [|done]. apply lookup_delete_eq.
    + apply lookup_delete_ne. intros Heq. apply Hvl. rewrite Heq. by left.
Qed.

Lemma for_each_delete l session :
  for_each l (λ vac, let* _ := VacationRepository.delete (vac_id vac) in ret tt) session
  = (Ok tt, set_vacations session (delete_all l (vacations session))).
Proof.
  revert session. induction l as [|v l IH]; intros session; simpl.
  - unfold ret. by rewrite set_vacations_id.
  - unfold bind at 1. unfold bind at 1.
    unfold VacationRepository.delete, bind, VacationRepository.get_by_id.
    destruct (vacations session !! vac_id v) as [row|] eqn:Hrow; simpl.
    + rewrite IH. done.
    + rewrite IH. unfold ret. simpl. by rewrite (delete_id _ _ Hrow).
Qed.

Lemma keys_fresh_next session :
  keys_fresh session → vacations session !! next_uuid session = None.
Proof.
  intros Hfresh.
  destruct (vacations session !! next_uuid session) as [row|] eqn:Hrow; [|done].
  apply Hfresh in Hrow. simpl in Hrow. lia.
Qed.

(** *** The query *)

Lemma get_overlapping_or_contiguous_eq employee_id vacation_type sd ed session :
  in_range sd ed →
  VacationRepository.get_overlapping_or_contiguous employee_id vacation_type
    (Some sd) (Some ed) session
  = (Ok (merge_sort start_date_le
           (filter (λ v, VacationRepository.selected employee_id vacation_type sd ed v = true)
                   (map_to_list (vacations session)))),
     session).
Proof.
  intros Hrange. unfold VacationRepository.get_overlapping_or_contiguous.
  by rewrite decide_True.
Qed.

Lemma get_overlapping_or_contiguous_overflow employee_id vacation_type sd ed session :
  ¬ in_range sd ed →
  VacationRepository.get_overlapping_or_contiguous employee_id vacation_type
    (Some sd) (Some ed) session
  = (Raise OverflowError, session).
Proof.
  intros Hrange. unfold VacationRepository.get_overlapping_or_contiguous.
  by rewrite decide_False.
Qed.

(** A query that returns was made with dates inside the range. *)
Lemma get_overlapping_or_contiguous_Ok employee_id vacation_type sd ed session l session' :
  VacationRepository.get_overlapping_or_contiguous employee_id vacation_type
    (Some sd) (Some ed) session = (Ok l, session') →
  in_range sd ed
  ∧ l = merge_sort start_date_le
          (filter (λ v, VacationRepository.selected employee_id vacation_type sd ed v = true)
                  (map_to_list (vacations session)))
  ∧ session' = session.
Proof.
  unfold VacationRepository.get_overlapping_or_contiguous.
  destruct (decide (in_range sd ed)); intros Hq; [|discriminate].
  injection Hq as <- <-. done.
Qed.

Lemma selected_spec employee_id vacation_type sd ed (v : Vacation) :
  VacationRepository.selected employee_id (Some vacation_type) sd ed v = true ↔
  VacationModel.employee_id v.2 = employee_id
  ∧ VacationModel.type v.2 = vacation_type
  ∧ overlapping_or_contiguous sd ed (vac_start v) (vac_end v) = true.
Proof.
  unfold VacationRepository.selected.
  rewrite !andb_true_iff, !bool_decide_eq_true.
  split; [intros [[? ?] ?] | intros (? & ? & ?)]; repeat split; congruence.
Qed.

Lemma elem_of_selected employee_id vacation_type sd ed session (v : Vacation) :
  v ∈ merge_sort start_date_le
        (filter (λ v, VacationRepository.selected employee_id vacation_type sd ed v = true)
                (map_to_list (vacations session)))
  ↔ vacations session !! v.1 = Some v.2
    ∧ VacationRepository.selected employee_id vacation_type sd ed v = true.
Proof.
  rewrite merge_sort_Permutation, list_elem_of_filter.
  destruct v as [i row]. rewrite elem_of_map_to_list. simpl. tauto.
Qed.

Lemma NoDup_selected employee_id vacation_type sd ed session :
  NoDup (merge_sort start_date_le
           (filter (λ v, VacationRepository.selected employee_id vacation_type sd ed v = true)
                   (map_to_list (vacations session)))).
Proof.
  rewrite merge_sort_Permutation. apply NoDup_filter, NoDup_map_to_list.
Qed.

(** ** Candidate retrieval *)

(** C2, as amended.  On a store whose rows satisfy
    [start_date <= end_date], and for a query range with
    [date.min < start_date <= end_date < date.max], the query returns
    exactly the stored vacations of the queried employee and type that are
    mergeable with the range (overlap, or ending one day before it, or
    beginning one day after it), each once, ordered by start date
    ascending. *)
Theorem get_overlapping_or_contiguous_exact
    session employee_id vacation_type start_date end_date :
  store_well_formed session →
  date_min < start_date →
  start_date ≤ end_date →
  end_date < date_max →
  ∃ l,
    VacationRepository.get_overlapping_or_contiguous employee_id
      (Some vacation_type) (Some start_date) (Some end_date) session
    = (Ok l, session)
    ∧ (∀ v : Vacation,
         v ∈ l ↔
         vacations session !! v.1 = Some v.2
         ∧ VacationModel.employee_id v.2 = employee_id
         ∧ VacationModel.type v.2 = vacation_type
         ∧ mergeable start_date end_date (vac_start v) (vac_end v))
    ∧ NoDup l
    ∧ Sorted start_date_le l.
Proof.
  intros Hwf Hmin _ Hmax. eexists.
  split; [by apply get_overlapping_or_contiguous_eq|].
  split; [|split].
  - intros v. rewrite elem_of_selected, selected_spec.
    split.
    + intros (Hv & He & Ht & Hm). repeat split; try done.
      apply overlapping_or_contiguous_mergeable; [|done].
      destruct v as [i row]. apply (Hwf i row Hv).
    + intros (Hv & He & Ht & Hm). repeat split; try done.
      apply overlapping_or_contiguous_mergeable; [|done].
      destruct v as [i row]. apply (Hwf i row Hv).
  - apply NoDup_selected.
  - apply Sorted_merge_sort. apply _.
Qed.

Lemma get_overlapping_or_contiguous_exact_witness :
  ∃ l,
    VacationRepository.get_overlapping_or_contiguous 7 (Some Paid) (Some 5) (Some 19)
      sample_store
    = (Ok l, sample_store)
    ∧ (∀ v : Vacation,
         v ∈ l ↔
         vacations sample_store !! v.1 = Some v.2
         ∧ VacationModel.employee_id v.2 = 7%nat
         ∧ VacationModel.type v.2 = Paid
         ∧ mergeable 5 19 (vac_start v) (vac_end v))
    ∧ NoDup l
    ∧ Sorted start_date_le l.
Proof.
  apply (get_overlapping_or_contiguous_exact sample_store 7 Paid 5 19).
  - apply (bool_decide_unpack _). vm_compute. exact I.
  - unfold date_min. lia.
  - lia.
  - unfold date_max. lia.
Defined.

(** C2, as it was stated, fails at the first date: the store has rows with
    [start_date <= end_date] and the query range has
    [start_date <= end_date], but [start_date - timedelta(days=1)] is no
    date, so the query raises and returns no list. *)
Lemma get_overlapping_or_contiguous_raises_at_date_min :
  store_well_formed sample_store
  ∧ date_min ≤ 5
  ∧ VacationRepository.get_overlapping_or_contiguous 7
      (Some Paid) (Some date_min) (Some 5) sample_store
    = (Raise OverflowError, sample_store)
  ∧ ¬ ∃ l,
        VacationRepository.get_overlapping_or_contiguous 7
          (Some Paid) (Some date_min) (Some 5) sample_store
        = (Ok l, sample_store).
Proof.
  split; [apply (bool_decide_unpack _); vm_compute; exact I|].
  split; [unfold date_min; lia|].
  split; [vm_compute; reflexivity|].
  intros [l Hl]. vm_compute in Hl. discriminate.
Qed.

(** The same at the last date: [end_date + timedelta(days=1)] is no date. *)
Example get_overlapping_or_contiguous_raises_at_date_max :
  VacationRepository.get_overlapping_or_contiguous 7
    (Some Paid) (Some 5) (Some date_max) sample_store
  = (Raise OverflowError, sample_store).
Proof. vm_compute. reflexivity. Qed.

(** The query on the sample store: both Paid vacations of employee 7 touch
    [[5, 19]]; the Unpaid one and the other employee's are left out. *)
Example get_overlapping_or_contiguous_sample :
  VacationRepository.get_overlapping_or_contiguous 7 (Some Paid) (Some 5) (Some 19)
    sample_store
  = (Ok [(1%nat, VacationModel.mk 7 Paid 1 4); (0%nat, VacationModel.mk 7 Paid 20 24)],
     sample_store).
Proof. vm_compute. reflexivity. Qed.

(** ** The create path *)

Lemma get_employee_found employee_id employee session :
  employees session !! employee_id = Some employee →
  VacationService.__get_employee employee_id session
  = (Ok (employee_id, employee), session).
Proof.
  intros H. unfold VacationService.__get_employee, bind, EmployeeRepository.get.
  by rewrite H.
Qed.

Lemma get_employee_missing employee_id session :
  employees session !! employee_id = None →
  VacationService.__get_employee employee_id session
  = (Raise OwnerNotFound, session).
Proof.
  intros H. unfold VacationService.__get_employee, bind, EmployeeRepository.get.
  by rewrite H.
Qed.

Lemma create_vacation_unknown_owner_eq session employee_id vacation_data :
  employees session !! employee_id = None →
  VacationService.create_vacation employee_id vacation_data session
  = (Raise (ValueError "Employee not found"), session).
Proof.
  intros H. unfold VacationService.create_vacation, bind.
  by rewrite (get_employee_missing _ _ H).
Qed.

(** C6. [create_vacation] for an employee id that resolves to no employee
    raises the owner-not-found error and leaves the session as it was:
    nothing is persisted, deleted or modified. *)
Theorem create_vacation_unknown_owner session employee_id vacation_data :
  employees session !! employee_id = None →
  VacationService.create_vacation employee_id vacation_data session
  = (Raise OwnerNotFound, session).
Proof.
  intros H. by apply create_vacation_unknown_owner_eq.
Qed.

Lemma create_vacation_unknown_owner_witness :
  VacationService.create_vacation 9 (VacationBase.mk 5 10 Paid) sample_store
  = (Raise OwnerNotFound, sample_store).
Proof.
  apply (create_vacation_unknown_owner sample_store 9 (VacationBase.mk 5 10 Paid)).
  vm_compute. reflexivity.
Defined.

Lemma merge_bounds_Some start_date end_date l first final :
  head l = Some first → last l = Some final →
  merge_bounds start_date end_date l
  = Some (Z.min start_date (vac_start first), Z.max end_date (vac_end final)).
Proof. intros Hh Hl. unfold merge_bounds. by rewrite Hh, Hl. Qed.

(** [create_vacation] for an existing owner, as one equation. *)
Lemma validate_dates_merged sd ed x y :
  sd ≤ ed → VacationBase.validate_dates (Z.min sd x) (Z.max ed y) = true.
Proof.
  intros H. unfold VacationBase.validate_dates.
  apply negb_true_iff, Z.ltb_ge. lia.
Qed.

Lemma create_vacation_eq session employee_id vacation_data employee :
  employees session !! employee_id = Some employee →
  VacationBase.valid vacation_data →
  in_range (VacationBase.start_date vacation_data) (VacationBase.end_date vacation_data) →
  VacationService.create_vacation employee_id vacation_data session
  = let M := mergeable_set session employee_id vacation_data in
    let '(new_start, new_end) :=
      default (VacationBase.start_date vacation_data, VacationBase.end_date vacation_data)
        (merge_bounds (VacationBase.start_date vacation_data)
           (VacationBase.end_date vacation_data) M) in
    let row :=
      VacationModel.mk employee_id (VacationBase.type vacation_data) new_start new_end in
    (Ok (next_uuid session, row),
     {| employees := employees session;
        vacations := <[next_uuid session := row]> (delete_all M (vacations session));
        next_uuid := S (next_uuid session) |}).
Proof.
  intros Hemp Hvalid Hrange. unfold VacationService.create_vacation, bind.
  rewrite (get_employee_found _ _ _ Hemp), get_overlapping_or_contiguous_eq by done.
  fold (mergeable_set session employee_id vacation_data). simpl.
  destruct (merge_bounds _ _ _) as [[new_start new_end]|] eqn:Hb.
  - rewrite for_each_delete. unfold VacationBase_init.
    assert (VacationBase.validate_dates new_start new_end = true) as ->.
    { unfold merge_bounds in Hb.
      destruct (head (mergeable_set session employee_id vacation_data)); [|done].
      destruct (last (mergeable_set session employee_id vacation_data)); [|done].
      injection Hb as <- <-. by apply validate_dates_merged. }
    unfold ret, VacationRepository.create. simpl. rewrite Hemp. reflexivity.
  - simpl. assert (mergeable_set session employee_id vacation_data = []) as ->.
    { unfold merge_bounds in Hb.
      destruct (mergeable_set session employee_id vacation_data) as [|v l]; [done|].
      simpl in Hb. destruct (last (v :: l)) eqn:Hl; [done|].
      by apply last_None in Hl. }
    unfold VacationRepository.create. simpl. rewrite Hemp. reflexivity.
Qed.

(** At the first or the last date the query raises and [create_vacation]
    with it, before anything is written. *)
Lemma create_vacation_overflow session employee_id vacation_data employee :
  employees session !! employee_id = Some employee →
  ¬ in_range (VacationBase.start_date vacation_data)
      (VacationBase.end_date vacation_data) →
  VacationService.create_vacation employee_id vacation_data session
  = (Raise OverflowError, session).
Proof.
  intros Hemp Hrange. unfold VacationService.create_vacation, bind.
  rewrite (get_employee_found _ _ _ Hemp).
  by rewrite get_overlapping_or_contiguous_overflow.
Qed.



(** At the first date the create path of a known employee raises and
    leaves the store as it was. *)
Example create_vacation_raises_at_date_min :
  VacationService.create_vacation 7 (VacationBase.mk date_min 5 Paid) sample_store
  = (Raise OverflowError, sample_store).
Proof.
  apply (create_vacation_overflow _ _ _ employee_7); [done|].
  unfold in_range. simpl. lia.
Qed.

(** The create path on the sample store: Paid [[5, 19]] for employee 7
    absorbs Paid [[1, 4]] and Paid [[20, 24]] into Paid [[1, 24]]. *)
Example create_vacation_sample :
  let run := VacationService.create_vacation 7 (VacationBase.mk 5 19 Paid) sample_store in
  run.1 = Ok (4%nat, VacationModel.mk 7 Paid 1 24)
  ∧ vacations run.2
    = {[ 2%nat := VacationModel.mk 7 Unpaid 6 8; 3%nat := VacationModel.mk 8 Paid 5 9;
         4%nat := VacationModel.mk 7 Paid 1 24 ]}.
Proof. vm_compute. split; reflexivity. Qed.

(** ** Merge bounds: first and last against the full reduction *)

Section Bounds.
Implicit Types (l : list Z) (x s : Z).

Lemma foldr_min_le s l :
  foldr Z.min s l ≤ s ∧ ∀ y, y ∈ l → foldr Z.min s l ≤ y.
Proof.
  induction l as [|a l [IHs IHl]]; simpl.
  - split; [lia|]. intros y Hy. by apply elem_of_nil in Hy.
  - split; [lia|]. intros y [->|Hy]%elem_of_cons; [lia|].
    specialize (IHl y Hy). lia.
Qed.

Lemma foldr_min_attained s l : foldr Z.min s l = s ∨ foldr Z.min s l ∈ l.
Proof.
  induction l as [|a l IH]; simpl; [by left|].
  destruct (Z.min_spec a (foldr Z.min s l)) as [[_ ->]|[_ ->]].
  - right. by left.
  - destruct IH as [IH|IH]; [by left|]. right. by right.
Qed.

Lemma foldr_min_least s l x :
  x ∈ l → (∀ y, y ∈ l → x ≤ y) → foldr Z.min s l = Z.min s x.
Proof.
  intros Hx Hleast.
  destruct (foldr_min_le s l) as [Hs Hl].
  specialize (Hl x Hx).
  destruct (foldr_min_attained s l) as [Heq|Hin]; [lia|].
  specialize (Hleast _ Hin). lia.
Qed.

Lemma foldr_max_ge s l :
  s ≤ foldr Z.max s l ∧ ∀ y, y ∈ l → y ≤ foldr Z.max s l.
Proof.
  induction l as [|a l [IHs IHl]]; simpl.
  - split; [lia|]. intros y Hy. by apply elem_of_nil in Hy.
  - split; [lia|]. intros y [->|Hy]%elem_of_cons; [lia|].
    specialize (IHl y Hy). lia.
Qed.

Lemma foldr_max_attained s l : foldr Z.max s l = s ∨ foldr Z.max s l ∈ l.
Proof.
  induction l as [|a l IH]; simpl; [by left|].
  destruct (Z.max_spec a (foldr Z.max s l)) as [[_ ->]|[_ ->]].
  - destruct IH as [IH|IH]; [by left|]. right. by right.
  - right. by left.
Qed.

Lemma foldr_max_greatest s l x :
  x ∈ l → (∀ y, y ∈ l → y ≤ x) → foldr Z.max s l = Z.max s x.
Proof.
  intros Hx Hgreatest.
  destruct (foldr_max_ge s l) as [Hs Hl].
  specialize (Hl x Hx).
  destruct (foldr_max_attained s l) as [Heq|Hin]; [lia|].
  specialize (Hgreatest _ Hin). lia.
Qed.
End Bounds.

Lemma StronglySorted_lookup_le {A} (R : relation A) (l : list A) i j x y :
  StronglySorted R l → l !! i = Some x → l !! j = Some y → (i < j)%nat → R x y.
Proof.
  intros Hl. revert i j. induction Hl as [|a l Hl IH Hall]; intros i j Hi Hj Hij.
  - by rewrite lookup_nil in Hi.
  - destruct j as [|j]; [lia|]. simpl in Hj.
    destruct i as [|i]; simpl in Hi.
    + injection Hi as ->. rewrite Forall_forall in Hall.
      apply Hall. by eapply list_elem_of_lookup_2.
    + apply (IH i j); [done|done|lia].
Qed.

(** In a sorted list of well-formed, pairwise unmergeable vacations the
    first element has the least start and the last one the greatest end. *)
Lemma sorted_antichain_extremes (l : list Vacation) first final :
  Forall well_formed l → Sorted start_date_le l → pairwise_unmergeable l →
  head l = Some first → last l = Some final →
  ∀ v, v ∈ l → vac_start first ≤ vac_start v ∧ vac_end v ≤ vac_end final.
Proof.
  intros Hwf Hsorted Hanti Hfirst Hfinal v Hv.
  apply Sorted_StronglySorted in Hsorted; [|apply _].
  rewrite head_lookup in Hfirst. rewrite last_lookup in Hfinal.
  apply list_elem_of_lookup in Hv as [i Hi].
  split.
  - destruct i as [|i]; [by simplify_eq|].
    change (start_date_le first v).
    apply (StronglySorted_lookup_le start_date_le l 0%nat (S i) first v); [done..|lia].
  - destruct (decide (i = pred (length l))) as [->|Hne]; [by simplify_eq|].
    assert (i < pred (length l))%nat as Hlt.
    { apply lookup_lt_Some in Hi. lia. }
    pose proof (StronglySorted_lookup_le start_date_le l _ _ v final
                  Hsorted Hi Hfinal Hlt) as Hle.
    pose proof (Hanti _ _ _ _ Hi Hfinal Hne) as Hnm.
    rewrite Forall_forall in Hwf.
    assert (well_formed final) as Hwff by (apply Hwf; by eapply list_elem_of_lookup_2).
    unfold mergeable in Hnm. unfold start_date_le in Hle. unfold well_formed in Hwff.
    lia.
Qed.

(** C9. On a non-empty list of vacations that is sorted by start date and
    pairwise neither overlapping nor adjacent, each with
    [start_date <= end_date], the bounds the service computes from the first
    and the last element equal the reduction of [min] over all starts and
    [max] over all ends together with the candidate. *)
Theorem merge_bounds_robust start_date end_date (M : list Vacation) :
  M ≠ [] →
  Forall well_formed M →
  Sorted start_date_le M →
  pairwise_unmergeable M →
  merge_bounds start_date end_date M = Some (robust_bounds start_date end_date M).
Proof.
  intros Hne Hwf Hsorted Hanti.
  destruct (head M) as [first|] eqn:Hfirst; [|by destruct M].
  destruct (last M) as [final|] eqn:Hfinal;
    [|by apply last_None in Hfinal].
  rewrite (merge_bounds_Some _ _ _ _ _ Hfirst Hfinal).
  pose proof (sorted_antichain_extremes M first final Hwf Hsorted Hanti Hfirst Hfinal)
    as Hext.
  unfold robust_bounds. f_equal. f_equal.
  - symmetry. apply foldr_min_least.
    + apply list_elem_of_fmap. exists first. split; [done|].
      by apply head_Some_elem_of.
    + intros y (v & -> & Hv)%list_elem_of_fmap. by apply Hext.
  - symmetry. apply foldr_max_greatest.
    + apply list_elem_of_fmap. exists final. split; [done|].
      by apply last_Some_elem_of.
    + intros y (v & -> & Hv)%list_elem_of_fmap. by apply Hext.
Qed.

Lemma merge_bounds_robust_witness :
  merge_bounds 5 19 [(1%nat, VacationModel.mk 7 Paid 1 4); (0%nat, VacationModel.mk 7 Paid 20 24)]
  = Some (robust_bounds 5 19
            [(1%nat, VacationModel.mk 7 Paid 1 4); (0%nat, VacationModel.mk 7 Paid 20 24)]).
Proof.
  apply (merge_bounds_robust 5 19
           [(1%nat, VacationModel.mk 7 Paid 1 4); (0%nat, VacationModel.mk 7 Paid 20 24)]).
  - discriminate.
  - repeat constructor; unfold well_formed, vac_start, vac_end; simpl; lia.
  - repeat constructor; unfold start_date_le, vac_start; simpl; lia.
  - intros [|[|i]] [|[|j]] v w Hi Hj Hne; simpl in Hi, Hj; try discriminate;
      try (exfalso; apply Hne; reflexivity);
      injection Hi as <-; injection Hj as <-;
      unfold mergeable, vac_start, vac_end; simpl; lia.
Defined.

(** Without [start_date <= end_date] on the elements the two computations
    can differ: the second vacation below ends before it starts. *)
Example merge_bounds_on_ill_formed_row :
  let M := [(0%nat, VacationModel.mk 7 Paid 1 10); (1%nat, VacationModel.mk 7 Paid 5 (-5))] in
  Sorted start_date_le M
  ∧ pairwise_unmergeable M
  ∧ merge_bounds 0 0 M = Some (0, 0)
  ∧ robust_bounds 0 0 M = (0, 10).
Proof.
  simpl. repeat split.
  - repeat constructor; unfold start_date_le, vac_start; simpl; lia.
  - intros [|[|i]] [|[|j]] v w Hi Hj Hne; simpl in Hi, Hj; try discriminate;
      try (exfalso; apply Hne; reflexivity);
      injection Hi as <-; injection Hj as <-;
      unfold mergeable, vac_start, vac_end; simpl; lia.
Qed.

(** ** Absorbing a single stored vacation *)

Lemma singleton_of_NoDup {A} (l : list A) (x : A) :
  NoDup l → x ∈ l → (∀ y, y ∈ l → y = x) → l = [x].
Proof.
  intros Hnd Hx Hall. destruct l as [|a l]; [by apply elem_of_nil in Hx|].
  assert (a = x) as -> by (apply Hall; by left).
  destruct l as [|b l]; [done|].
  assert (b = x) as -> by (apply Hall; right; by left).
  apply NoDup_cons in Hnd as [Hnd _]. exfalso. apply Hnd. by left.
Qed.

Lemma create_vacation_absorb_one session employee_id employee t sd ed a b :
  employees session !! employee_id = Some employee →
  sd ≤ ed →
  in_range sd ed →
  keys_fresh session →
  ranges session employee_id t = [(a, b)] →
  overlapping_or_contiguous sd ed a b = true →
  ∃ v session',
    VacationService.create_vacation employee_id (VacationBase.mk sd ed t) session
    = (Ok v, session')
    ∧ v.2 = VacationModel.mk employee_id t (Z.min sd a) (Z.max ed b)
    ∧ ranges session' employee_id t = [(Z.min sd a, Z.max ed b)]
    ∧ (∀ t', t' ≠ t → ranges session' employee_id t' ≡ₚ ranges session employee_id t')
    ∧ keys_fresh session'
    ∧ employees session' = employees session.
Proof.
  intros Hemp Hvalid Hrange Hfresh Hranges Hoc.
  unfold ranges in Hranges.
  set (P := λ v : Vacation, VacationModel.employee_id v.2 = employee_id
                            ∧ VacationModel.type v.2 = t) in *.
  destruct (filter P (map_to_list (vacations session))) as [|[i0 r0] [|? ?]] eqn:HL;
    simpl in Hranges; try discriminate.
  injection Hranges as Ha Hb.
  assert (Hin0 : (i0, r0) ∈ filter P (map_to_list (vacations session)))
    by (rewrite HL; by left).
  apply list_elem_of_filter in Hin0 as [[He0 Ht0] Hm0]. simpl in He0, Ht0.
  apply elem_of_map_to_list in Hm0.
  (* the query returns that single row *)
  set (M := merge_sort start_date_le
              (filter (λ v, VacationRepository.selected employee_id (Some t) sd ed v = true)
                      (map_to_list (vacations session)))).
  assert (HM : M = [(i0, r0)]).
  { apply singleton_of_NoDup.
    - apply NoDup_selected.
    - apply elem_of_selected. split; [done|].
      apply selected_spec. simpl. repeat split; try done.
      unfold vac_start, vac_end in *. simpl in *. by rewrite Ha, Hb.
    - intros y Hy. apply elem_of_selected in Hy as [Hy Hsel].
      apply selected_spec in Hsel as (He & Ht & _).
      assert (y ∈ filter P (map_to_list (vacations session))) as Hyin.
      { apply list_elem_of_filter. split; [done|].
        destruct y. by apply elem_of_map_to_list. }
      rewrite HL in Hyin. by apply list_elem_of_singleton in Hyin. }
  pose proof (keys_fresh_next _ Hfresh) as Hnew.
  assert (Hne : i0 ≠ next_uuid session) by (intros ->; congruence).
  set (merged := VacationModel.mk employee_id t (Z.min sd a) (Z.max ed b)).
  exists (next_uuid session, merged).
  eexists. split.
  { rewrite (create_vacation_eq _ _ _ _ Hemp) by done.
    unfold mergeable_set. simpl. fold M. rewrite HM.
    unfold merge_bounds. simpl. unfold vac_start, vac_end in *. simpl in *.
    rewrite Ha, Hb. reflexivity. }
  simpl.
  (* the table after the call, up to the order of its rows *)
  assert (Hperm : ∀ Q : Vacation → Prop, ∀ HQ : (∀ x, Decision (Q x)),
            filter Q (map_to_list
              (<[next_uuid session := merged]> (base.delete i0 (vacations session))))
            ≡ₚ filter Q ((next_uuid session, merged)
                          :: map_to_list (base.delete i0 (vacations session)))).
  { intros Q HQ. apply filter_Permutation, map_to_list_insert.
    by rewrite lookup_delete_ne. }
  assert (Hdel : ∀ Q : Vacation → Prop, ∀ HQ : (∀ x, Decision (Q x)),
            filter Q ((i0, r0) :: map_to_list (base.delete i0 (vacations session)))
            ≡ₚ filter Q (map_to_list (vacations session))).
  { intros Q HQ. apply filter_Permutation. by apply map_to_list_delete. }
  split; [done|]. split; [|split; [|split]].
  - unfold ranges. fold P.
    assert (filter P (map_to_list (base.delete i0 (vacations session))) = []) as Hrest.
    { pose proof (Hdel P _) as Hd. rewrite filter_cons_True in Hd by done.
      rewrite HL in Hd. apply Permutation_cons_inv in Hd.
      by apply Permutation_nil_r in Hd. }
    pose proof (Hperm P _) as Hp. rewrite filter_cons_True in Hp by done.
    rewrite Hrest in Hp. apply Permutation_singleton_r in Hp.
    cbn [vacations]. fold merged. by rewrite Hp.
  - intros t' Ht'. unfold ranges.
    set (P' := λ v : Vacation, VacationModel.employee_id v.2 = employee_id
                               ∧ VacationModel.type v.2 = t').
    apply fmap_Permutation. cbn [vacations]. fold merged.
    rewrite (Hperm P' _). rewrite filter_cons_False by (intros [_ Hc]; simpl in Hc; done).
    rewrite <- (Hdel P' _).
    rewrite filter_cons_False; [done|]. intros [_ Hc]. simpl in Hc. congruence.
  - unfold keys_fresh. simpl. apply map_Forall_insert_2; [lia|].
    intros i row Hi. apply lookup_delete_Some in Hi as [_ Hi].
    apply Hfresh in Hi. simpl in Hi. lia.
  - done.
Qed.

(** ** Idempotent consolidation *)

(** C8. When the Paid vacations stored for employee [E] are exactly
    [[1, 4]], creating Paid [[5, 10]] returns [[1, 10]] and leaves exactly
    one Paid vacation [[1, 10]] for [E]; creating Paid [[5, 10]] once more
    returns [[1, 10]] again, the Paid vacations of [E] are still exactly
    [[1, 10]] and the Unpaid ones are the same as before. *)
Theorem idempotent_consolidation session E employee :
  employees session !! E = Some employee →
  keys_fresh session →
  ranges session E Paid = [(1, 4)] →
  ∃ v1 session1 v2 session2,
    VacationService.create_vacation E (VacationBase.mk 5 10 Paid) session
    = (Ok v1, session1)
    ∧ v1.2 = VacationModel.mk E Paid 1 10
    ∧ ranges session1 E Paid = [(1, 10)]
    ∧ ranges session1 E Unpaid ≡ₚ ranges session E Unpaid
    ∧ VacationService.create_vacation E (VacationBase.mk 5 10 Paid) session1
      = (Ok v2, session2)
    ∧ v2.2 = VacationModel.mk E Paid 1 10
    ∧ ranges session2 E Paid = [(1, 10)]
    ∧ ranges session2 E Unpaid ≡ₚ ranges session1 E Unpaid.
Proof.
  intros Hemp Hfresh Hranges.
  assert (5 ≤ 10) as Hvalid by lia.
  assert (in_range 5 10) as Hrange by (unfold in_range, date_min, date_max; lia).
  destruct (create_vacation_absorb_one session E employee Paid 5 10 1 4
              Hemp Hvalid Hrange Hfresh Hranges eq_refl)
    as (v1 & session1 & Hrun1 & Hv1 & Hr1 & Hother1 & Hfresh1 & Hemp1).
  change (Z.min 5 1) with 1 in *. change (Z.max 10 4) with 10 in *.
  rewrite <- Hemp1 in Hemp.
  destruct (create_vacation_absorb_one session1 E employee Paid 5 10 1 10
              Hemp Hvalid Hrange Hfresh1 Hr1 eq_refl)
    as (v2 & session2 & Hrun2 & Hv2 & Hr2 & Hother2 & _ & _).
  change (Z.min 5 1) with 1 in *. change (Z.max 10 10) with 10 in *.
  exists v1, session1, v2, session2.
  repeat split; try done.
  - by apply Hother1.
  - by apply Hother2.
Qed.

Lemma idempotent_consolidation_witness :
  ∃ v1 session1 v2 session2,
    VacationService.create_vacation 7 (VacationBase.mk 5 10 Paid) store_1_4
    = (Ok v1, session1)
    ∧ v1.2 = VacationModel.mk 7 Paid 1 10
    ∧ ranges session1 7 Paid = [(1, 10)]
    ∧ ranges session1 7 Unpaid ≡ₚ ranges store_1_4 7 Unpaid
    ∧ VacationService.create_vacation 7 (VacationBase.mk 5 10 Paid) session1
      = (Ok v2, session2)
    ∧ v2.2 = VacationModel.mk 7 Paid 1 10
    ∧ ranges session2 7 Paid = [(1, 10)]
    ∧ ranges session2 7 Unpaid ≡ₚ ranges session1 7 Unpaid.
Proof.
  apply (idempotent_consolidation store_1_4 7 employee_7).
  - vm_compute. reflexivity.
  - apply (bool_decide_unpack _). vm_compute. exact I.
  - vm_compute. reflexivity.
Defined.

(** The two calls on the sample store, evaluated. *)
Example idempotent_consolidation_run :
  let run1 := VacationService.create_vacation 7 (VacationBase.mk 5 10 Paid) store_1_4 in
  let run2 := VacationService.create_vacation 7 (VacationBase.mk 5 10 Paid) run1.2 in
  run1.1 = Ok (3%nat, VacationModel.mk 7 Paid 1 10)
  ∧ vacations run1.2
    = {[ 1%nat := VacationModel.mk 7 Unpaid 6 8; 2%nat := VacationModel.mk 8 Paid 5 9;
         3%nat := VacationModel.mk 7 Paid 1 10 ]}
  ∧ run2.1 = Ok (4%nat, VacationModel.mk 7 Paid 1 10)
  ∧ vacations run2.2
    = {[ 1%nat := VacationModel.mk 7 Unpaid 6 8; 2%nat := VacationModel.mk 8 Paid 5 9;
         4%nat := VacationModel.mk 7 Paid 1 10 ]}.
Proof. vm_compute. repeat split. Qed.

(** ** The update path *)

(** The sample stores are what the service builds. *)
Example store_1_4_reachable :
  let run1 := VacationService.create_vacation 7 (VacationBase.mk 1 4 Paid) empty_store in
  let run2 := VacationService.create_vacation 7 (VacationBase.mk 6 8 Unpaid) run1.2 in
  let run3 := VacationService.create_vacation 8 (VacationBase.mk 5 9 Paid) run2.2 in
  run3.2 = store_1_4.
Proof. vm_compute. reflexivity. Qed.

Example sample_store_reachable :
  let run1 := VacationService.create_vacation 7 (VacationBase.mk 20 24 Paid) empty_store in
  let run2 := VacationService.create_vacation 7 (VacationBase.mk 1 4 Paid) run1.2 in
  let run3 := VacationService.create_vacation 7 (VacationBase.mk 6 8 Unpaid) run2.2 in
  let run4 := VacationService.create_vacation 8 (VacationBase.mk 5 9 Paid) run3.2 in
  run4.2 = sample_store.
Proof. vm_compute. reflexivity. Qed.

Example two_paid_store_reachable :
  let run1 := VacationService.create_vacation 7 (VacationBase.mk 1 3 Paid) empty_store in
  let run2 := VacationService.create_vacation 7 (VacationBase.mk 6 8 Paid) run1.2 in
  run2.2 = two_paid_store.
Proof. vm_compute. reflexivity. Qed.

Example two_paid_store_invariant :
  store_well_formed two_paid_store ∧ keys_fresh two_paid_store ∧ antichain two_paid_store.
Proof. repeat split; apply (bool_decide_unpack _); vm_compute; exact I. Qed.

(** C3, at the input where it fails.  On a reachable store that satisfies the
    antichain invariant, an update of vacation 0 (Paid [[1, 3]]) that sets the
    dates to [[1, 5]] and leaves [type] unset succeeds: the query is made with
    type [None], selects nothing, and the dates are written as they are.  The
    store then holds Paid [[1, 5]] next to Paid [[6, 8]], one day apart. *)
Theorem update_vacation_unset_type_breaks_antichain :
  antichain two_paid_store
  ∧ ∃ session',
      VacationService.update_vacation 7 0
        (VacationUpdate.mk (Some (Some 1)) (Some (Some 5)) None) two_paid_store
      = (Ok (Some (0%nat, VacationModel.mk 7 Paid 1 5)), session')
      ∧ vacations session'
        = {[ 0%nat := VacationModel.mk 7 Paid 1 5; 1%nat := VacationModel.mk 7 Paid 6 8 ]}
      ∧ ¬ antichain session'.
Proof.
  split; [apply (bool_decide_unpack _); vm_compute; exact I|].
  eexists. split; [vm_compute; reflexivity|].
  split; [vm_compute; reflexivity|].
  apply (bool_decide_eq_false_1 _). vm_compute. reflexivity.
Qed.

(** C4, at the input where it fails.  Vacation 0 of employee 7 is Paid
    [[1, 4]]; updating it to Paid [[1, 6]] retrieves the vacation itself as the
    only mergeable one, deletes it, and then finds nothing to patch: the call
    returns [None] and no Paid vacation of employee 7 is left. *)
Theorem update_vacation_deletes_itself :
  ∃ session',
    VacationService.update_vacation 7 0 (full_update 1 6 Paid) store_1_4
    = (Ok None, session')
    ∧ vacations session'
      = {[ 1%nat := VacationModel.mk 7 Unpaid 6 8; 2%nat := VacationModel.mk 8 Paid 5 9 ]}
    ∧ ranges session' 7 Paid = [].
Proof.
  eexists. split; [vm_compute; reflexivity|].
  split; vm_compute; reflexivity.
Qed.

(** C5, at the input where it fails.  Vacation 0 of employee 7 is Paid
    [[1, 4]].  An update that sets only [type] to Unpaid raises, with the store
    untouched, because the query is made with the unset dates; the update
    with the resolved values Unpaid [[1, 4]] succeeds. *)
Theorem update_vacation_partial_raises :
  VacationService.update_vacation 7 0
    (VacationUpdate.mk None None (Some (Some Unpaid))) store_1_4
  = (Raise ArgumentError, store_1_4)
  ∧ ∃ session',
      VacationService.update_vacation 7 0 (full_update 1 4 Unpaid) store_1_4
      = (Ok (Some (0%nat, VacationModel.mk 7 Unpaid 1 4)), session').
Proof.
  split; [vm_compute; reflexivity|].
  eexists. vm_compute. reflexivity.
Qed.

(** An update with an unset date raises whatever the store holds. *)
Lemma update_vacation_unset_date_raises session employee_id vacation_id vacation_data :
  VacationUpdate.attr (VacationUpdate.start_date vacation_data) = None
  ∨ VacationUpdate.attr (VacationUpdate.end_date vacation_data) = None →
  ∃ e, VacationService.update_vacation employee_id vacation_id vacation_data session
       = (Raise e, session).
Proof.
  intros Hunset.
  unfold VacationService.update_vacation, bind.
  destruct (VacationService.__get_employee employee_id session) as [[employee|e] s1] eqn:Hget.
  - assert (s1 = session) as ->.
    { unfold VacationService.__get_employee, bind, EmployeeRepository.get in Hget.
      destruct (employees session !! employee_id); simpl in Hget;
        unfold ret, raise in Hget; by simplify_eq. }
    unfold VacationService.employee_vacations, VacationRepository.get_by_employee.
    destruct (filter _ _) as [|? ?]; [by eexists|].
    unfold VacationRepository.get_overlapping_or_contiguous.
    destruct Hunset as [-> | ->]; [by eexists|].
    destruct (VacationUpdate.attr (VacationUpdate.start_date vacation_data)); by eexists.
  - unfold VacationService.__get_employee, bind, EmployeeRepository.get in Hget.
    destruct (employees session !! employee_id); simpl in Hget;
      unfold ret, raise in Hget; simplify_eq.
    by eexists.
Qed.

(** ** Deletion *)

(** Deleting an absent key directly in the repository returns [None], raises
    nothing and changes nothing. *)
Lemma repository_delete_absent session vacation_id :
  vacations session !! vacation_id = None →
  VacationRepository.delete vacation_id session = (Ok None, session).
Proof.
  intros H. unfold VacationRepository.delete, bind, VacationRepository.get_by_id.
  by rewrite H.
Qed.

(** Deleting through the service, for an existing employee, a vacation id
    that resolves to nothing raises the interval-not-found error and changes
    nothing. *)
Lemma delete_vacation_unknown session employee_id employee vacation_id :
  employees session !! employee_id = Some employee →
  vacations session !! vacation_id = None →
  VacationService.delete_vacation employee_id vacation_id session
  = (Raise IntervalNotFound, session).
Proof.
  intros Hemp H. unfold VacationService.delete_vacation, bind.
  rewrite (get_employee_found _ _ _ Hemp).
  unfold VacationRepository.get. by rewrite H.
Qed.

(** C7, at the input where it fails.  Vacation 2 belongs to employee 8;
    [delete_vacation] addressed to employee 7 does not raise and deletes
    it. *)
Theorem delete_vacation_ignores_owner :
  vacations store_1_4 !! 2%nat = Some (VacationModel.mk 8 Paid 5 9)
  ∧ ∃ session',
      VacationService.delete_vacation 7 2 store_1_4 = (Ok tt, session')
      ∧ vacations session' !! 2%nat = None.
Proof.
  split; [vm_compute; reflexivity|].
  eexists. split; vm_compute; reflexivity.
Qed.

(** ** The search route *)

(** A keyword that names no parameter makes the call raise [TypeError],
    whatever the body is; the session is untouched. *)
Lemma call_with_keywords_unexpected {A} name params kwargs
    (body : (string → value) → SessionM A) k v :
  (k, v) ∈ kwargs → k ∉ params →
  ∃ msg, ∀ session,
    call_with_keywords name params kwargs body session = (Raise (TypeError msg), session).
Proof.
  intros Hin Hnot. unfold call_with_keywords.
  destruct (list_find (λ kw : string * value, kw.1 ∉ params) kwargs)
    as [[i [k' v']]|] eqn:Hfind.
  - eexists. intros session. reflexivity.
  - exfalso. apply list_find_None in Hfind.
    rewrite Forall_forall in Hfind. by apply (Hfind (k, v) Hin).
Qed.

(** C10. Whatever the query parameters and the store, the handler of the
    search route raises [TypeError]: it passes the keyword [vacation_type],
    which is no parameter of the service method, so the call fails before
    the method body, and with it the repository, is reached.  The store is
    unchanged and no list is returned. *)
Theorem search_route_raises ilike start_date end_date type employee_id
    first_name last_name session :
  VacationRoutes.search_vacations ilike start_date end_date type employee_id
    first_name last_name session
  = (Raise (TypeError
       "_VacationService.search_vacations() got an unexpected keyword argument 'vacation_type'"),
     session).
Proof.
  unfold VacationRoutes.search_vacations, call_with_keywords.
  (* the first keyword that names no parameter is the fourth one *)
  assert (list_find (λ kw : string * value,
                       kw.1 ∉ VacationService.search_vacations_params)
            [("session", VSession);
             ("start_date", of_optional VDate start_date);
             ("end_date", of_optional VDate end_date);
             ("vacation_type", of_optional VInt type);
             ("employee_id", of_optional VUUID employee_id);
             ("first_name", of_optional VStr first_name);
             ("last_name", of_optional VStr last_name)]%string
          = Some (3%nat, ("vacation_type"%string, of_optional VInt type))) as ->
    by reflexivity.
  reflexivity.
Qed.

(** ** What every call keeps *)

Section Preserves.
Context (P : Session → Prop).

Lemma preserves_ret {A} (a : A) : preserves P (ret a).
Proof. intros s r s' HP Hrun. unfold ret in Hrun. by simplify_eq. Qed.

Lemma preserves_raise {A} (e : exn) : preserves P (raise (A:=A) e).
Proof. intros s r s' HP Hrun. unfold raise in Hrun. by simplify_eq. Qed.

Lemma preserves_read {A} (c : SessionM A) : (∀ s, (c s).2 = s) → preserves P c.
Proof. intros Hread s r s' HP Hrun. specialize (Hread s). rewrite Hrun in Hread. by subst. Qed.

Lemma preserves_bind_result {A B} (c : SessionM A) (k : A → SessionM B) :
  preserves P c →
  (∀ a, (∃ s s', c s = (Ok a, s')) → preserves P (k a)) →
  preserves P (bind c k).
Proof.
  intros Hc Hk s r s' HP Hrun. unfold bind in Hrun.
  destruct (c s) as [[a|e] s1] eqn:Hcs.
  - eapply Hk; [by eauto| |exact Hrun]. by eapply Hc.
  - simplify_eq. by eapply Hc.
Qed.

Lemma preserves_bind {A B} (c : SessionM A) (k : A → SessionM B) :
  preserves P c → (∀ a, preserves P (k a)) → preserves P (bind c k).
Proof. intros Hc Hk. apply preserves_bind_result; [done|]. intros a _. apply Hk. Qed.

Lemma preserves_for_each {A} (xs : list A) (body : A → SessionM unit) :
  (∀ x, preserves P (body x)) → preserves P (for_each xs body).
Proof.
  intros Hbody. induction xs as [|x xs IH]; simpl.
  - apply preserves_ret.
  - apply preserves_bind; [apply Hbody | intros _; apply IH].
Qed.

Lemma preserves_query employee_id vacation_type start_date end_date :
  preserves P (VacationRepository.get_overlapping_or_contiguous employee_id
                 vacation_type start_date end_date).
Proof.
  apply preserves_read. intros s.
  unfold VacationRepository.get_overlapping_or_contiguous.
  destruct start_date as [sd|], end_date as [ed|]; try done.
  by destruct (decide (in_range sd ed)).
Qed.

Lemma preserves_get_employee employee_id :
  preserves P (VacationService.__get_employee employee_id).
Proof.
  apply preserves_bind; [by apply preserves_read|].
  intros [employee|]; [apply preserves_ret | apply preserves_raise].
Qed.

Lemma preserves_employee_vacations employee :
  preserves P (VacationService.employee_vacations employee).
Proof. by apply preserves_read. Qed.
End Preserves.

Lemma delete_store_ok vacation_id :
  preserves store_ok (VacationRepository.delete vacation_id).
Proof.
  intros s r s' [Hwf Hfresh] Hrun.
  unfold VacationRepository.delete, bind, VacationRepository.get_by_id in Hrun.
  destruct (vacations s !! vacation_id); simpl in Hrun; unfold ret in Hrun;
    simplify_eq; [|done].
  split.
  - by apply map_Forall_delete.
  - unfold keys_fresh. simpl. by apply map_Forall_delete.
Qed.

Lemma create_store_ok obj_in employee_id :
  VacationBase.valid obj_in →
  preserves store_ok (VacationRepository.create obj_in employee_id).
Proof.
  intros Hvalid s r s' [Hwf Hfresh] Hrun.
  unfold VacationRepository.create in Hrun.
  destruct (employees s !! employee_id); simplify_eq; [|done].
  split.
  - unfold store_well_formed. simpl. by apply map_Forall_insert_2.
  - unfold keys_fresh. simpl. apply map_Forall_insert_2; [lia|].
    intros i row Hi. apply Hfresh in Hi. simpl in Hi. lia.
Qed.

Lemma patch_store_ok vacation_id obj_in sd ed :
  VacationUpdate.start_date obj_in = Some (Some sd) →
  VacationUpdate.end_date obj_in = Some (Some ed) →
  sd ≤ ed →
  preserves store_ok (VacationRepository.patch vacation_id obj_in).
Proof.
  intros Hsd Hed Hle s r s' [Hwf Hfresh] Hrun.
  unfold VacationRepository.patch, bind, VacationRepository.get_by_id in Hrun.
  destruct (vacations s !! vacation_id) as [row|] eqn:Hrow; simpl in Hrun;
    unfold ret in Hrun; [|by simplify_eq].
  destruct (VacationRepository.setattrs obj_in row) as [row'|] eqn:Hset;
    [|by simplify_eq].
  simplify_eq. unfold VacationRepository.setattrs in Hset.
  rewrite Hsd, Hed in Hset. simpl in Hset.
  destruct (VacationUpdate.type obj_in) as [[ty|]|]; simpl in Hset; simplify_eq.
  - split.
    + unfold store_well_formed. simpl. by apply map_Forall_insert_2.
    + unfold keys_fresh. simpl. apply map_Forall_insert_2; [|done].
      by apply (Hfresh vacation_id row).
  - split.
    + unfold store_well_formed. simpl. by apply map_Forall_insert_2.
    + unfold keys_fresh. simpl. apply map_Forall_insert_2; [|done].
      by apply (Hfresh vacation_id row).
Qed.

Lemma delete_loop_store_ok (l : list Vacation) :
  preserves store_ok
    (for_each l (λ vac, let* _ := VacationRepository.delete (vac_id vac) in ret tt)).
Proof.
  apply preserves_for_each. intros vac.
  apply preserves_bind; [apply delete_store_ok | intros _; apply preserves_ret].
Qed.

Lemma validate_dates_valid sd ed :
  VacationBase.validate_dates sd ed = true ↔ sd ≤ ed.
Proof. unfold VacationBase.validate_dates. rewrite negb_true_iff, Z.ltb_ge. done. Qed.

Lemma create_vacation_store_ok employee_id vacation_data :
  VacationBase.valid vacation_data →
  preserves store_ok (VacationService.create_vacation employee_id vacation_data).
Proof.
  intros Hvalid. unfold VacationService.create_vacation.
  apply preserves_bind; [apply preserves_get_employee|]. intros employee.
  apply preserves_bind; [apply preserves_query|]. intros existing_vacations.
  destruct (merge_bounds _ _ _) as [[new_start new_end]|].
  - apply preserves_bind; [apply delete_loop_store_ok|]. intros _.
    apply preserves_bind_result.
    + unfold VacationBase_init.
      destruct (VacationBase.validate_dates _ _);
        [apply preserves_ret | apply preserves_raise].
    + intros vacation (s & s' & Hinit). unfold VacationBase_init in Hinit.
      destruct (VacationBase.validate_dates new_start new_end) eqn:Hv;
        unfold ret, raise in Hinit; simplify_eq.
      apply create_store_ok. by apply validate_dates_valid.
  - by apply create_store_ok.
Qed.

Lemma update_vacation_store_ok employee_id vacation_id vacation_data :
  VacationUpdate.validate_dates vacation_data = true →
  preserves store_ok
    (VacationService.update_vacation employee_id vacation_id vacation_data).
Proof.
  intros Hvalid. unfold VacationService.update_vacation.
  apply preserves_bind; [apply preserves_get_employee|]. intros employee.
  apply preserves_bind; [apply preserves_employee_vacations|]. intros vacations.
  destruct (filter _ vacations) as [|? ?]; [apply preserves_raise|].
  unfold VacationUpdate.validate_dates in Hvalid.
  destruct (VacationUpdate.start_date vacation_data) as [[sd|]|] eqn:Hsd;
    try (apply preserves_bind_result; [apply preserves_query|];
         intros a (s & s' & Hq); simpl in Hq; discriminate).
  destruct (VacationUpdate.end_date vacation_data) as [[ed|]|] eqn:Hed;
    try (apply preserves_bind_result; [apply preserves_query|];
         intros a (s & s' & Hq); simpl in Hq; discriminate).
  simpl in Hvalid. apply negb_true_iff, Z.ltb_ge in Hvalid.
  apply preserves_bind; [apply preserves_query|]. intros existing_vacations.
  destruct existing_vacations as [|first rest].
  - by apply (patch_store_ok _ _ sd ed).
  - cbn -[for_each merge_bounds].
    destruct (merge_bounds sd ed (first :: rest)) as [[new_start new_end]|] eqn:Hb.
    + apply preserves_bind; [apply delete_loop_store_ok|]. intros _.
      apply (patch_store_ok _ _ new_start new_end); [done|done|].
      unfold merge_bounds in Hb.
      destruct (head (first :: rest)), (last (first :: rest)); simplify_eq. lia.
    + by apply (patch_store_ok _ _ sd ed).
Qed.

Lemma delete_vacation_store_ok employee_id vacation_id :
  preserves store_ok (VacationService.delete_vacation employee_id vacation_id).
Proof.
  unfold VacationService.delete_vacation.
  apply preserves_bind; [apply preserves_get_employee|]. intros employee.
  apply preserves_bind; [by apply preserves_read|]. intros [vacation|].
  - apply preserves_bind; [apply delete_store_ok | intros _; apply preserves_ret].
  - apply preserves_raise.
Qed.

Lemma step_store_ok s s' : step s s' → store_ok s → store_ok s'.
Proof.
  intros [employee_id vacation_data s1 r s1' Hvalid Hrun
         |employee_id vacation_id vacation_data s1 r s1' Hvalid Hrun
         |employee_id vacation_id s1 r s1' Hrun] Hok.
  - by eapply create_vacation_store_ok.
  - by eapply update_vacation_store_ok.
  - by eapply delete_vacation_store_ok.
Qed.

(** X11. Every store the service can build from a store without vacations,
    by calls of [create_vacation], [update_vacation] and [delete_vacation] on
    validated input, has rows with [start_date <= end_date] and primary keys
    below the next key, whether the calls return or raise. *)
Theorem reachable_store_ok session :
  reachable session → store_well_formed session ∧ keys_fresh session.
Proof.
  intros (s0 & Hempty & Hsteps).
  assert (store_ok s0) as Hok0.
  { split.
    - unfold store_well_formed. rewrite Hempty. apply map_Forall_empty.
    - unfold keys_fresh. rewrite Hempty. apply map_Forall_empty. }
  clear Hempty. induction Hsteps as [|s1 s2 s3 Hstep _ IH]; [done|].
  apply IH. by eapply step_store_ok.
Qed.

Lemma reachable_store_ok_witness :
  store_well_formed
    (VacationService.update_vacation 7 0 (VacationUpdate.mk None (Some (Some 9)) None)
       (VacationService.create_vacation 7 (VacationBase.mk 1 3 Paid) empty_store).2).2
  ∧ keys_fresh
      (VacationService.update_vacation 7 0 (VacationUpdate.mk None (Some (Some 9)) None)
         (VacationService.create_vacation 7 (VacationBase.mk 1 3 Paid) empty_store).2).2.
Proof.
  apply (reachable_store_ok
           (VacationService.update_vacation 7 0 (VacationUpdate.mk None (Some (Some 9)) None)
              (VacationService.create_vacation 7 (VacationBase.mk 1 3 Paid) empty_store).2).2).
  exists empty_store. split; [reflexivity|].
  eapply rtc_l.
  { apply (step_create 7 (VacationBase.mk 1 3 Paid) empty_store
             (VacationService.create_vacation 7 (VacationBase.mk 1 3 Paid) empty_store).1).
    - unfold VacationBase.valid. simpl. lia.
    - apply surjective_pairing. }
  eapply rtc_l; [|apply rtc_refl].
  apply (step_update 7 0 (VacationUpdate.mk None (Some (Some 9)) None) _
           (VacationService.update_vacation 7 0 (VacationUpdate.mk None (Some (Some 9)) None)
              (VacationService.create_vacation 7 (VacationBase.mk 1 3 Paid) empty_store).2).1).
  - reflexivity.
  - apply surjective_pairing.
Defined.

(** ** The antichain invariant *)

Lemma mergeable_sym a1 a2 b1 b2 : mergeable a1 a2 b1 b2 → mergeable b1 b2 a1 a2.
Proof. unfold mergeable. lia. Qed.

(** A vacation that touches neither the candidate nor the first nor the last
    absorbed vacation does not touch the merged range either. *)
Lemma hull_unmergeable sd ed fs fe ls le ws we :
  sd ≤ ed → fs ≤ fe → ls ≤ le → ws ≤ we →
  mergeable sd ed fs fe → mergeable sd ed ls le →
  ¬ mergeable sd ed ws we → ¬ mergeable fs fe ws we → ¬ mergeable ls le ws we →
  ¬ mergeable (Z.min sd fs) (Z.max ed le) ws we.
Proof. unfold mergeable. lia. Qed.

Lemma antichain_delete_all session l :
  antichain session →
  antichain (set_vacations session (delete_all l (vacations session))).
Proof.
  intros Hanti i v Hi j w Hj. simpl in Hi, Hj.
  rewrite lookup_delete_all in Hi, Hj.
  destruct (decide (i ∈ l.*1)); [done|]. destruct (decide (j ∈ l.*1)); [done|].
  by apply (Hanti i v Hi j w Hj).
Qed.

(** Replacing the mergeable set of a candidate by one row with the merged
    bounds, stored under any key, keeps the antichain invariant. *)
Lemma antichain_consolidate session employee_id vacation_data k new_start new_end :
  store_well_formed session →
  antichain session →
  VacationBase.valid vacation_data →
  let M := mergeable_set session employee_id vacation_data in
  default (VacationBase.start_date vacation_data, VacationBase.end_date vacation_data)
    (merge_bounds (VacationBase.start_date vacation_data)
       (VacationBase.end_date vacation_data) M)
  = (new_start, new_end) →
  antichain
    (set_vacations session
       (<[k := VacationModel.mk employee_id (VacationBase.type vacation_data)
                 new_start new_end]> (delete_all M (vacations session)))).
Proof.
  intros Hwf Hanti Hvalid M Hbounds.
  destruct vacation_data as [sd ed t]. unfold VacationBase.valid in Hvalid.
  simpl in *.
  (* membership in the mergeable set *)
  assert (HM : ∀ v : Vacation, v ∈ M →
            vacations session !! v.1 = Some v.2
            ∧ VacationModel.employee_id v.2 = employee_id
            ∧ VacationModel.type v.2 = t
            ∧ vac_start v ≤ vac_end v
            ∧ mergeable sd ed (vac_start v) (vac_end v)).
  { intros v Hv. apply elem_of_selected in Hv as [Hv Hsel].
    apply selected_spec in Hsel as (He & Ht & Hoc).
    assert (vac_start v ≤ vac_end v) as Hwfv by (destruct v; by apply (Hwf _ _ Hv)).
    repeat split; try done.
    by apply overlapping_or_contiguous_mergeable. }
  (* a remaining row of the same owner and type is away from the merged range *)
  assert (Hhull : ∀ j w, vacations session !! j = Some w → j ∉ M.*1 →
            VacationModel.employee_id w = employee_id → VacationModel.type w = t →
            ¬ mergeable new_start new_end
                (VacationModel.start_date w) (VacationModel.end_date w)).
  { intros j w Hj HjM He Ht.
    pose proof (Hwf j w Hj) as Hwfw. unfold well_formed, vac_start, vac_end in Hwfw.
    simpl in Hwfw.
    assert (¬ mergeable sd ed (VacationModel.start_date w) (VacationModel.end_date w))
      as Hcand.
    { intros Hm. apply HjM. apply list_elem_of_fmap. exists (j, w). split; [done|].
      apply elem_of_selected. split; [done|].
      apply selected_spec. repeat split; try done.
      by apply overlapping_or_contiguous_mergeable. }
    unfold merge_bounds in Hbounds.
    destruct (head M) as [first|] eqn:Hfirst; [|simpl in Hbounds; by simplify_eq].
    destruct (last M) as [final|] eqn:Hfinal; [|simpl in Hbounds; by simplify_eq].
    simpl in Hbounds. injection Hbounds as <- <-.
    apply head_Some_elem_of in Hfirst. apply last_Some_elem_of in Hfinal.
    destruct (HM _ Hfirst) as (Hf1 & Hf2 & Hf3 & Hf4 & Hf5).
    destruct (HM _ Hfinal) as (Hl1 & Hl2 & Hl3 & Hl4 & Hl5).
    assert (∀ v : Vacation, v ∈ M → v.1 ≠ j) as Hne.
    { intros v Hv <-. apply HjM. apply list_elem_of_fmap. by exists v. }
    apply (hull_unmergeable sd ed (vac_start first) (vac_end first)
             (vac_start final) (vac_end final)); try done.
    - apply (Hanti _ _ Hf1 _ _ Hj (Hne _ Hfirst)). split; simpl; congruence.
    - apply (Hanti _ _ Hl1 _ _ Hj (Hne _ Hfinal)). split; simpl; congruence. }
  intros i v Hi j w Hj Hij [He Ht]. simpl in Hi, Hj, He, Ht.
  apply lookup_insert_Some in Hi as [[<- <-]|[Hki Hi]];
    apply lookup_insert_Some in Hj as [[<- <-]|[Hkj Hj]]; try done.
  - rewrite lookup_delete_all in Hj. destruct (decide (j ∈ M.*1)); [done|].
    simpl in *. by apply (Hhull j w).
  - rewrite lookup_delete_all in Hi. destruct (decide (i ∈ M.*1)); [done|].
    simpl in *. intros Hm. apply mergeable_sym in Hm. by apply (Hhull i v).
  - rewrite lookup_delete_all in Hi, Hj.
    destruct (decide (i ∈ M.*1)); [done|]. destruct (decide (j ∈ M.*1)); [done|].
    by apply (Hanti i v Hi j w Hj).
Qed.

Lemma antichain_after_create session employee_id vacation_data r session' :
  VacationBase.valid vacation_data →
  store_well_formed session →
  antichain session →
  VacationService.create_vacation employee_id vacation_data session = (r, session') →
  antichain session'.
Proof.
  intros Hvalid Hwf Hanti Hrun.
  destruct (employees session !! employee_id) as [employee|] eqn:Hemp.
  - destruct (decide (in_range (VacationBase.start_date vacation_data)
                        (VacationBase.end_date vacation_data))) as [Hrange|Hrange].
    + rewrite (create_vacation_eq _ _ _ _ Hemp Hvalid Hrange) in Hrun. simpl in Hrun.
      destruct (default _ _) as [new_start new_end] eqn:Hbounds.
      simplify_eq.
      by apply (antichain_consolidate session employee_id vacation_data
                  (next_uuid session) new_start new_end).
    + rewrite (create_vacation_overflow _ _ _ _ Hemp Hrange) in Hrun. by simplify_eq.
  - rewrite (create_vacation_unknown_owner_eq _ _ _ Hemp) in Hrun. by simplify_eq.
Qed.

(** X12. The create path keeps the antichain invariant, whatever the call
    returns: on a store with well-formed rows that satisfies the invariant,
    and for a validated candidate, the store after [create_vacation]
    satisfies it again. *)
Theorem create_vacation_antichain session employee_id vacation_data r session' :
  VacationBase.valid vacation_data →
  store_well_formed session →
  antichain session →
  VacationService.create_vacation employee_id vacation_data session = (r, session') →
  antichain session'.
Proof. apply antichain_after_create. Qed.

Lemma create_vacation_antichain_witness :
  antichain (VacationService.create_vacation 7 (VacationBase.mk 5 19 Paid) sample_store).2.
Proof.
  apply (create_vacation_antichain sample_store 7 (VacationBase.mk 5 19 Paid)
           (VacationService.create_vacation 7 (VacationBase.mk 5 19 Paid) sample_store).1).
  - unfold VacationBase.valid. simpl. lia.
  - apply (bool_decide_unpack _). vm_compute. exact I.
  - apply (bool_decide_unpack _). vm_compute. exact I.
  - apply surjective_pairing.
Defined.

(** ** The update path with every field supplied *)

Lemma employee_vacation_found session employee_id vacation_id row :
  vacations session !! vacation_id = Some row →
  VacationModel.employee_id row = employee_id →
  filter (λ v, vac_id v = vacation_id)
    (filter (λ v : Vacation, VacationModel.employee_id v.2 = employee_id)
       (map_to_list (vacations session))) ≠ [].
Proof.
  intros Hrow Hemp Hnil.
  assert ((vacation_id, row) ∈
            filter (λ v, vac_id v = vacation_id)
              (filter (λ v : Vacation, VacationModel.employee_id v.2 = employee_id)
                 (map_to_list (vacations session)))) as Hin.
  { apply list_elem_of_filter. split; [done|].
    apply list_elem_of_filter. split; [done|].
    by apply elem_of_map_to_list. }
  rewrite Hnil in Hin. by apply elem_of_nil in Hin.
Qed.

Lemma employee_vacation_missing session employee_id vacation_id :
  (∀ row, vacations session !! vacation_id = Some row →
          VacationModel.employee_id row ≠ employee_id) →
  filter (λ v, vac_id v = vacation_id)
    (filter (λ v : Vacation, VacationModel.employee_id v.2 = employee_id)
       (map_to_list (vacations session))) = [].
Proof.
  intros Hmissing.
  destruct (filter _ _) as [|[i row] l] eqn:Hl; [done|].
  assert ((i, row) ∈ (i, row) :: l) as Hin by by left.
  rewrite <- Hl in Hin.
  apply list_elem_of_filter in Hin as [Hid Hin].
  apply list_elem_of_filter in Hin as [Hemp Hin].
  apply elem_of_map_to_list in Hin. unfold vac_id in Hid. simpl in *. subst i.
  by destruct (Hmissing row Hin).
Qed.

Lemma merge_bounds_cons sd ed (first : Vacation) rest :
  ∃ final, last (first :: rest) = Some final
    ∧ merge_bounds sd ed (first :: rest)
      = Some (Z.min sd (vac_start first), Z.max ed (vac_end final)).
Proof.
  destruct (last (first :: rest)) as [final|] eqn:Hlast;
    [|by apply last_None in Hlast].
  exists final. split; [done|]. unfold merge_bounds. by rewrite Hlast.
Qed.

(** [update_vacation] with all three fields supplied, for an existing
    employee and one of their vacations, as one equation. *)
Lemma update_vacation_full_eq session employee_id employee vacation_id row sd ed t :
  employees session !! employee_id = Some employee →
  vacations session !! vacation_id = Some row →
  VacationModel.employee_id row = employee_id →
  in_range sd ed →
  VacationService.update_vacation employee_id vacation_id (full_update sd ed t) session
  = let M := mergeable_set session employee_id (VacationBase.mk sd ed t) in
    match merge_bounds sd ed M with
    | None =>
        (Ok (Some (vacation_id, VacationModel.mk employee_id t sd ed)),
         set_vacations session
           (<[vacation_id := VacationModel.mk employee_id t sd ed]> (vacations session)))
    | Some (new_start, new_end) =>
        if decide (vacation_id ∈ M.*1) then
          (Ok None, set_vacations session (delete_all M (vacations session)))
        else
          (Ok (Some (vacation_id, VacationModel.mk employee_id t new_start new_end)),
           set_vacations session
             (<[vacation_id := VacationModel.mk employee_id t new_start new_end]>
                (delete_all M (vacations session))))
    end.
Proof.
  intros Hemp Hrow Hown Hrange.
  unfold VacationService.update_vacation, bind.
  rewrite (get_employee_found _ _ _ Hemp).
  unfold VacationService.employee_vacations, VacationRepository.get_by_employee.
  cbn [fst snd].
  pose proof (employee_vacation_found _ _ _ _ Hrow Hown) as Hfound.
  destruct (filter (λ v, vac_id v = vacation_id) _) as [|? ?]; [done|].
  clear Hfound. unfold full_update, VacationUpdate.attr.
  cbn [VacationUpdate.start_date VacationUpdate.end_date VacationUpdate.type mjoin
       option_join].
  rewrite get_overlapping_or_contiguous_eq by done.
  change (merge_sort start_date_le _)
    with (mergeable_set session employee_id (VacationBase.mk sd ed t)).
  cbv zeta.
  destruct (mergeable_set session employee_id (VacationBase.mk sd ed t))
    as [|first rest] eqn:HM.
  - cbn [merge_bounds head last].
    unfold VacationRepository.patch, bind, VacationRepository.get_by_id.
    rewrite Hrow. simpl. by rewrite Hown.
  - destruct (merge_bounds_cons sd ed first rest) as (final & _ & ->).
    rewrite for_each_delete.
    unfold VacationRepository.patch, bind, VacationRepository.get_by_id.
    cbn [vacations set_vacations].
    rewrite lookup_delete_all.
    destruct (decide (vacation_id ∈ (first :: rest).*1)); simpl; [done|].
    rewrite Hrow. simpl. by rewrite Hown.
Qed.

(** At the first or the last date the query of the update path raises, and
    nothing is written. *)
Lemma update_vacation_full_overflow session employee_id employee vacation_id row sd ed t :
  employees session !! employee_id = Some employee →
  vacations session !! vacation_id = Some row →
  VacationModel.employee_id row = employee_id →
  ¬ in_range sd ed →
  VacationService.update_vacation employee_id vacation_id (full_update sd ed t) session
  = (Raise OverflowError, session).
Proof.
  intros Hemp Hrow Hown Hrange.
  unfold VacationService.update_vacation, bind.
  rewrite (get_employee_found _ _ _ Hemp).
  unfold VacationService.employee_vacations, VacationRepository.get_by_employee.
  cbn [fst snd].
  pose proof (employee_vacation_found _ _ _ _ Hrow Hown) as Hfound.
  destruct (filter (λ v, vac_id v = vacation_id) _) as [|? ?]; [done|].
  clear Hfound. unfold full_update, VacationUpdate.attr.
  cbn [VacationUpdate.start_date VacationUpdate.end_date VacationUpdate.type mjoin
       option_join].
  by rewrite get_overlapping_or_contiguous_overflow.
Qed.

Lemma update_vacation_not_found session employee_id employee vacation_id vacation_data :
  employees session !! employee_id = Some employee →
  (∀ row, vacations session !! vacation_id = Some row →
          VacationModel.employee_id row ≠ employee_id) →
  VacationService.update_vacation employee_id vacation_id vacation_data session
  = (Raise IntervalNotFound, session).
Proof.
  intros Hemp Hmissing.
  unfold VacationService.update_vacation, bind.
  rewrite (get_employee_found _ _ _ Hemp).
  unfold VacationService.employee_vacations, VacationRepository.get_by_employee.
  cbn [fst snd]. by rewrite (employee_vacation_missing _ _ _ Hmissing).
Qed.

Lemma update_vacation_unknown_owner session employee_id vacation_id vacation_data :
  employees session !! employee_id = None →
  VacationService.update_vacation employee_id vacation_id vacation_data session
  = (Raise OwnerNotFound, session).
Proof.
  intros Hemp. unfold VacationService.update_vacation, bind.
  by rewrite (get_employee_missing _ _ Hemp).
Qed.

Lemma antichain_after_full_update
    session employee_id vacation_id sd ed t r session' :
  sd ≤ ed →
  store_well_formed session →
  antichain session →
  VacationService.update_vacation employee_id vacation_id (full_update sd ed t) session
  = (r, session') →
  antichain session'.
Proof.
  intros Hvalid Hwf Hanti Hrun.
  destruct (employees session !! employee_id) as [employee|] eqn:Hemp;
    [|rewrite (update_vacation_unknown_owner _ _ _ _ Hemp) in Hrun; by simplify_eq].
  destruct (vacations session !! vacation_id) as [row|] eqn:Hrow;
    [|rewrite (update_vacation_not_found _ _ _ _ _ Hemp) in Hrun;
      [by simplify_eq | intros row' Hrow'; congruence]].
  destruct (decide (VacationModel.employee_id row = employee_id)) as [Hown|Hown];
    [|rewrite (update_vacation_not_found _ _ _ _ _ Hemp) in Hrun;
      [by simplify_eq | intros row' Hrow'; congruence]].
  destruct (decide (in_range sd ed)) as [Hrange|Hrange];
    [|rewrite (update_vacation_full_overflow _ _ _ _ _ _ _ _ Hemp Hrow Hown Hrange) in Hrun;
      by simplify_eq].
  rewrite (update_vacation_full_eq _ _ _ _ _ _ _ _ Hemp Hrow Hown Hrange) in Hrun.
  cbv zeta in Hrun.
  pose proof (antichain_consolidate session employee_id (VacationBase.mk sd ed t)
                vacation_id) as Hcons.
  cbn [VacationBase.start_date VacationBase.end_date VacationBase.type] in Hcons.
  destruct (merge_bounds sd ed _) as [[new_start new_end]|] eqn:Hb.
  - destruct (decide (vacation_id ∈ _)); injection Hrun as _ <-.
    + by apply antichain_delete_all.
    + by apply (Hcons new_start new_end).
  - injection Hrun as _ <-. specialize (Hcons sd ed Hwf Hanti Hvalid eq_refl).
    assert (mergeable_set session employee_id (VacationBase.mk sd ed t) = []) as HM.
    { unfold merge_bounds in Hb.
      destruct (mergeable_set session employee_id _) as [|v l]; [done|].
      simpl in Hb. destruct (last (v :: l)) eqn:Hl; [done|].
      by apply last_None in Hl. }
    by rewrite HM in Hcons.
Qed.

(** X13. An update with all three fields supplied keeps the antichain
    invariant, whatever the call returns: on a store with well-formed rows
    that satisfies the invariant, and for [start_date <= end_date], the
    store after [update_vacation] satisfies it again. *)
Theorem update_vacation_full_antichain
    session employee_id vacation_id sd ed t r session' :
  sd ≤ ed →
  store_well_formed session →
  antichain session →
  VacationService.update_vacation employee_id vacation_id (full_update sd ed t) session
  = (r, session') →
  antichain session'.
Proof. apply antichain_after_full_update. Qed.

Lemma update_vacation_full_antichain_witness :
  antichain (VacationService.update_vacation 7 2 (full_update 5 19 Paid) sample_store).2.
Proof.
  apply (update_vacation_full_antichain sample_store 7 2 5 19 Paid
           (VacationService.update_vacation 7 2 (full_update 5 19 Paid) sample_store).1).
  - lia.
  - apply (bool_decide_unpack _). vm_compute. exact I.
  - apply (bool_decide_unpack _). vm_compute. exact I.
  - apply surjective_pairing.
Defined.

(** * Further properties of the repositories, the service and the routes *)

(** ** The vacation repository *)

(** X1. For the id of a stored employee, a created vacation gets a key
    that was not in use, carries the fields of the schema object and the
    employee id, and is what a lookup of that key returns afterwards; no
    other row changes and the keys stay fresh. *)
Theorem repository_create_get session obj_in employee_id employee :
  employees session !! employee_id = Some employee →
  keys_fresh session →
  ∃ v session',
    VacationRepository.create obj_in employee_id session = (Ok v, session')
    ∧ v.2 = VacationModel.mk employee_id (VacationBase.type obj_in)
              (VacationBase.start_date obj_in) (VacationBase.end_date obj_in)
    ∧ vacations session !! vac_id v = None
    ∧ VacationRepository.get_by_id (vac_id v) session' = (Ok (Some v), session')
    ∧ (∀ i, i ≠ vac_id v → vacations session' !! i = vacations session !! i)
    ∧ keys_fresh session'.
Proof.
  intros Hemp Hfresh. eexists. eexists. split.
  { unfold VacationRepository.create. rewrite Hemp. reflexivity. }
  split; [reflexivity|].
  split; [by apply keys_fresh_next|].
  split; [|split].
  - unfold VacationRepository.get_by_id, vac_id. simpl.
    by rewrite lookup_insert_eq.
  - intros i Hi. unfold vac_id in Hi. simpl in *. by rewrite lookup_insert_ne.
  - unfold keys_fresh. simpl. apply map_Forall_insert_2; [lia|].
    intros i row Hi. apply Hfresh in Hi. simpl in Hi. lia.
Qed.

Lemma repository_create_get_witness :
  ∃ v session',
    VacationRepository.create (VacationBase.mk 11 12 Unpaid) 8 sample_store = (Ok v, session')
    ∧ v.2 = VacationModel.mk 8 (VacationBase.type (VacationBase.mk 11 12 Unpaid))
              (VacationBase.start_date (VacationBase.mk 11 12 Unpaid))
              (VacationBase.end_date (VacationBase.mk 11 12 Unpaid))
    ∧ vacations sample_store !! vac_id v = None
    ∧ VacationRepository.get_by_id (vac_id v) session' = (Ok (Some v), session')
    ∧ (∀ i, i ≠ vac_id v → vacations session' !! i = vacations sample_store !! i)
    ∧ keys_fresh session'.
Proof.
  apply (repository_create_get sample_store (VacationBase.mk 11 12 Unpaid) 8 employee_8).
  - vm_compute. reflexivity.
  - apply (bool_decide_unpack _). vm_compute. exact I.
Defined.



(** X2. Deleting a stored vacation returns it and removes exactly that row:
    a lookup of the key then finds nothing, every other row and the
    employees are as before, and deleting the same key again returns [None]
    without changing anything. *)
Theorem repository_delete_present session vacation_id row :
  vacations session !! vacation_id = Some row →
  ∃ session',
    VacationRepository.delete vacation_id session = (Ok (Some (vacation_id, row)), session')
    ∧ VacationRepository.get_by_id vacation_id session' = (Ok None, session')
    ∧ (∀ i, i ≠ vacation_id → vacations session' !! i = vacations session !! i)
    ∧ employees session' = employees session
    ∧ VacationRepository.delete vacation_id session' = (Ok None, session').
Proof.
  intros Hrow. eexists. split.
  { unfold VacationRepository.delete, bind, VacationRepository.get_by_id.
    rewrite Hrow. reflexivity. }
  split; [|split; [|split]].
  - unfold VacationRepository.get_by_id. simpl. by rewrite lookup_delete_eq.
  - intros i Hi. simpl. by rewrite lookup_delete_ne.
  - done.
  - apply repository_delete_absent. simpl. apply lookup_delete_eq.
Qed.

Lemma repository_delete_present_witness :
  ∃ session',
    VacationRepository.delete 2 sample_store
    = (Ok (Some (2%nat, VacationModel.mk 7 Unpaid 6 8)), session')
    ∧ VacationRepository.get_by_id 2 session' = (Ok None, session')
    ∧ (∀ i, i ≠ 2%nat → vacations session' !! i = vacations sample_store !! i)
    ∧ employees session' = employees sample_store
    ∧ VacationRepository.delete 2 session' = (Ok None, session').
Proof.
  apply (repository_delete_present sample_store 2 (VacationModel.mk 7 Unpaid 6 8)).
  vm_compute. reflexivity.
Defined.

(** ** Reading an employee's vacations *)

(** X4. [get_vacations_by_employee_id] raises the owner-not-found error for
    an unknown employee; for a known one it returns, each once, exactly the
    stored vacations whose employee id is the given one.  The session is
    unchanged either way. *)
Theorem get_vacations_by_employee_id_exact session employee_id :
  match employees session !! employee_id with
  | None =>
      VacationService.get_vacations_by_employee_id employee_id session
      = (Raise OwnerNotFound, session)
  | Some _ =>
      ∃ l,
        VacationService.get_vacations_by_employee_id employee_id session
        = (Ok l, session)
        ∧ NoDup l
        ∧ ∀ v : Vacation,
            v ∈ l ↔ vacations session !! v.1 = Some v.2
                    ∧ VacationModel.employee_id v.2 = employee_id
  end.
Proof.
  unfold VacationService.get_vacations_by_employee_id, bind.
  destruct (employees session !! employee_id) as [employee|] eqn:Hemp.
  - rewrite (get_employee_found _ _ _ Hemp).
    eexists. split; [reflexivity|]. simpl. split.
    + apply NoDup_filter, NoDup_map_to_list.
    + intros [i row]. rewrite list_elem_of_filter, elem_of_map_to_list. simpl. tauto.
  - by rewrite (get_employee_missing _ _ Hemp).
Qed.

(** ** Search *)

Lemma filter_all {A} (P : A → Prop) `{∀ x, Decision (P x)} (l : list A) :
  (∀ x, x ∈ l → P x) → filter P l = l.
Proof.
  induction l as [|a l IH]; intros Hall; [done|].
  rewrite filter_cons_True by (apply Hall; by left).
  f_equal. apply IH. intros x Hx. apply Hall. by right.
Qed.

Lemma filter_none {A} (P : A → Prop) `{∀ x, Decision (P x)} (l : list A) :
  (∀ x, x ∈ l → ¬ P x) → filter P l = [].
Proof.
  induction l as [|a l IH]; intros Hall; [done|].
  rewrite filter_cons_False by (apply Hall; by left).
  apply IH. intros x Hx. apply Hall. by right.
Qed.

Lemma truthy_spec (name : option string) :
  VacationRepository.truthy name = true ↔ ∃ n, name = Some n ∧ n ≠ EmptyString.
Proof.
  unfold VacationRepository.truthy. destruct name as [n|].
  - rewrite negb_true_iff, String.eqb_neq. split.
    + intros Hn. by exists n.
    + intros (n' & [= <-] & Hn). done.
  - split; [done|]. intros (n & Hn & _). done.
Qed.

(** The filter of [search], read as a conjunction of the supplied criteria. *)
Lemma matches_spec ilike session start_date end_date vacation_type employee_id
    first_name last_name (v : Vacation) :
  VacationRepository.matches ilike session start_date end_date vacation_type
    employee_id first_name last_name v = true ↔
  (∀ d, start_date = Some d → vac_start v = d)
  ∧ (∀ d, end_date = Some d → vac_end v = d)
  ∧ (∀ t, vacation_type = Some t → type_code (VacationModel.type v.2) = t)
  ∧ (∀ e, employee_id = Some e → VacationModel.employee_id v.2 = e)
  ∧ (∀ n, first_name = Some n → n ≠ EmptyString →
       ∃ employee, employees session !! VacationModel.employee_id v.2 = Some employee
         ∧ ilike (EmployeeModel.first_name employee)
             (String.append "%" (String.append n "%")) = true)
  ∧ (∀ n, last_name = Some n → n ≠ EmptyString →
       ∃ employee, employees session !! VacationModel.employee_id v.2 = Some employee
         ∧ ilike (EmployeeModel.last_name employee)
             (String.append "%" (String.append n "%")) = true).
Proof.
  unfold VacationRepository.matches. rewrite !andb_true_iff.
  assert (∀ {A} (o : option A) (f : A → bool),
            from_option f true o = true ↔ ∀ a, o = Some a → f a = true) as Hopt.
  { intros A [a|] f; simpl; [|done]. split; [by intros ? ? [= <-]|auto]. }
  rewrite !Hopt. setoid_rewrite bool_decide_eq_true.
  assert ((if VacationRepository.truthy first_name || VacationRepository.truthy last_name
           then match employees session !! VacationModel.employee_id v.2 with
                | Some employee =>
                    VacationRepository.name_filter ilike first_name
                      (EmployeeModel.first_name employee)
                    && VacationRepository.name_filter ilike last_name
                         (EmployeeModel.last_name employee)
                | None => false
                end
           else true) = true ↔
          (∀ n, first_name = Some n → n ≠ EmptyString →
             ∃ employee, employees session !! VacationModel.employee_id v.2 = Some employee
               ∧ ilike (EmployeeModel.first_name employee)
                   (String.append "%" (String.append n "%")) = true)
          ∧ (∀ n, last_name = Some n → n ≠ EmptyString →
               ∃ employee, employees session !! VacationModel.employee_id v.2 = Some employee
                 ∧ ilike (EmployeeModel.last_name employee)
                     (String.append "%" (String.append n "%")) = true)) as Hnames.
  { clear Hopt.
    destruct first_name as [[|c1 n1]|]; destruct last_name as [[|c2 n2]|]; simpl;
      destruct (employees session !! VacationModel.employee_id v.2) as [employee|];
      rewrite ?andb_true_iff, ?andb_true_r;
      (split; [intros Hm; split; intros n Hn Hne; simplify_eq; try done;
                 destruct_and?; eauto
              |intros [H1 H2];
               try (destruct (H1 _ eq_refl) as (? & ? & ?); [done|simplify_eq]);
               try (destruct (H2 _ eq_refl) as (? & ? & ?); [done|simplify_eq]);
               try done; by auto]). }
  rewrite Hnames. tauto.
Qed.

(** X5. The search of the service returns, each once, exactly the stored
    vacations that meet every supplied criterion: start date and end date
    by equality, type by its integer code, employee id by equality, and for
    each non-empty name that the owner exists and [ILIKE] accepts the
    pattern [%name%] on the owner's name.  A criterion that is [None], and a
    name that is the empty string, constrains nothing; the session is
    unchanged. *)
Theorem search_vacations_exact ilike session start_date end_date type employee_id
    first_name last_name :
  ∃ l,
    VacationService.search_vacations ilike start_date end_date type employee_id
      first_name last_name session = (Ok l, session)
    ∧ NoDup l
    ∧ ∀ v : Vacation,
        v ∈ l ↔
        vacations session !! v.1 = Some v.2
        ∧ (∀ d, start_date = Some d → vac_start v = d)
        ∧ (∀ d, end_date = Some d → vac_end v = d)
        ∧ (∀ t, type = Some t → type_code (VacationModel.type v.2) = t)
        ∧ (∀ e, employee_id = Some e → VacationModel.employee_id v.2 = e)
        ∧ (∀ n, first_name = Some n → n ≠ EmptyString →
             ∃ employee, employees session !! VacationModel.employee_id v.2 = Some employee
               ∧ ilike (EmployeeModel.first_name employee)
                   (String.append "%" (String.append n "%")) = true)
        ∧ (∀ n, last_name = Some n → n ≠ EmptyString →
             ∃ employee, employees session !! VacationModel.employee_id v.2 = Some employee
               ∧ ilike (EmployeeModel.last_name employee)
                   (String.append "%" (String.append n "%")) = true).
Proof.
  eexists. split; [reflexivity|]. split.
  - apply NoDup_filter, NoDup_map_to_list.
  - intros [i row]. rewrite list_elem_of_filter, elem_of_map_to_list, matches_spec.
    simpl. tauto.
Qed.

(** A search without any criterion returns every stored vacation. *)
Theorem search_vacations_no_criterion ilike session :
  VacationService.search_vacations ilike None None None None None None session
  = (Ok (map_to_list (vacations session)), session).
Proof.
  unfold VacationService.search_vacations, VacationRepository.search.
  f_equal. f_equal. apply filter_all. intros v _. reflexivity.
Qed.

(** ** Deleting through the service *)

(** X6. For a known employee, [delete_vacation] of a stored vacation, of
    whichever owner, returns normally and removes exactly that row; a second
    call with the same id raises the interval-not-found error and changes
    nothing. *)
Theorem delete_vacation_present session employee_id employee vacation_id row :
  employees session !! employee_id = Some employee →
  vacations session !! vacation_id = Some row →
  ∃ session',
    VacationService.delete_vacation employee_id vacation_id session = (Ok tt, session')
    ∧ vacations session' !! vacation_id = None
    ∧ (∀ i, i ≠ vacation_id → vacations session' !! i = vacations session !! i)
    ∧ employees session' = employees session
    ∧ VacationService.delete_vacation employee_id vacation_id session'
      = (Raise IntervalNotFound, session').
Proof.
  intros Hemp Hrow. eexists. split.
  { unfold VacationService.delete_vacation, bind.
    rewrite (get_employee_found _ _ _ Hemp).
    unfold VacationRepository.get. rewrite Hrow. simpl.
    unfold VacationRepository.delete, bind, VacationRepository.get_by_id.
    rewrite Hrow. reflexivity. }
  simpl. split; [apply lookup_delete_eq|].
  split; [intros i Hi; by rewrite lookup_delete_ne|].
  split; [done|].
  apply (delete_vacation_unknown _ _ employee); [done|]. simpl. apply lookup_delete_eq.
Qed.

Lemma delete_vacation_present_witness :
  ∃ session',
    VacationService.delete_vacation 7 1 sample_store = (Ok tt, session')
    ∧ vacations session' !! 1%nat = None
    ∧ (∀ i, i ≠ 1%nat → vacations session' !! i = vacations sample_store !! i)
    ∧ employees session' = employees sample_store
    ∧ VacationService.delete_vacation 7 1 session' = (Raise IntervalNotFound, session').
Proof.
  apply (delete_vacation_present sample_store 7 employee_7 1 (VacationModel.mk 7 Paid 1 4)).
  - vm_compute. reflexivity.
  - vm_compute. reflexivity.
Defined.

(** ** Updating through the service *)

(** X7. [update_vacation] first looks the employee up and then the vacation
    among that employee's vacations: an unknown employee gives the
    owner-not-found error, and for a known employee a vacation id that is
    absent or belongs to another employee gives the interval-not-found
    error.  Nothing is changed in either case, whatever the update holds. *)
Theorem update_vacation_lookup_errors session employee_id vacation_id vacation_data :
  match employees session !! employee_id with
  | None =>
      VacationService.update_vacation employee_id vacation_id vacation_data session
      = (Raise OwnerNotFound, session)
  | Some _ =>
      (∀ row, vacations session !! vacation_id = Some row →
              VacationModel.employee_id row ≠ employee_id) →
      VacationService.update_vacation employee_id vacation_id vacation_data session
      = (Raise IntervalNotFound, session)
  end.
Proof.
  destruct (employees session !! employee_id) as [employee|] eqn:Hemp.
  - intros Hmissing. by apply (update_vacation_not_found _ _ employee).
  - by apply update_vacation_unknown_owner.
Qed.

(** The other employee's vacation cannot be updated through employee 7. *)
Example update_vacation_foreign_sample :
  VacationService.update_vacation 7 3 (full_update 5 9 Paid) sample_store
  = (Raise IntervalNotFound, sample_store).
Proof. vm_compute. reflexivity. Qed.

(** X8. An update of an employee's own vacation with all three fields
    supplied, the dates inside the range of the date arithmetic, retrieves
    the mergeable set [M] of the new type and range.  When
    [M] is empty the row takes the three fields as they are.  When [M] is
    not empty and does not hold the updated vacation, every vacation of [M]
    is removed and the row takes the new type and the bounds merged from the
    first and the last element of [M]; it is returned.  When [M] holds the
    updated vacation, every vacation of [M], the updated one included, is
    removed and the call returns [None].  Rows outside [M] other than the
    updated one never change. *)
Theorem update_vacation_full_path session employee_id employee vacation_id row sd ed t :
  employees session !! employee_id = Some employee →
  vacations session !! vacation_id = Some row →
  VacationModel.employee_id row = employee_id →
  in_range sd ed →
  ∃ M,
    VacationRepository.get_overlapping_or_contiguous employee_id
      (Some t) (Some sd) (Some ed) session = (Ok M, session)
    ∧ (M = [] →
       VacationService.update_vacation employee_id vacation_id (full_update sd ed t) session
       = (Ok (Some (vacation_id, VacationModel.mk employee_id t sd ed)),
          set_vacations session
            (<[vacation_id := VacationModel.mk employee_id t sd ed]> (vacations session))))
    ∧ (∀ first final, head M = Some first → last M = Some final →
       let merged :=
         VacationModel.mk employee_id t
           (Z.min sd (vac_start first)) (Z.max ed (vac_end final)) in
       (vacation_id ∉ M.*1 →
        ∃ session',
          VacationService.update_vacation employee_id vacation_id (full_update sd ed t) session
          = (Ok (Some (vacation_id, merged)), session')
          ∧ vacations session' !! vacation_id = Some merged
          ∧ (∀ m, m ∈ M → vacations session' !! m.1 = None)
          ∧ (∀ i, i ≠ vacation_id → i ∉ M.*1 →
               vacations session' !! i = vacations session !! i))
       ∧ (vacation_id ∈ M.*1 →
          ∃ session',
            VacationService.update_vacation employee_id vacation_id (full_update sd ed t) session
            = (Ok None, session')
            ∧ vacations session' !! vacation_id = None
            ∧ (∀ m, m ∈ M → vacations session' !! m.1 = None)
            ∧ (∀ i, i ∉ M.*1 → vacations session' !! i = vacations session !! i))).
Proof.
  intros Hemp Hrow Hown Hrange.
  exists (mergeable_set session employee_id (VacationBase.mk sd ed t)).
  split; [by apply get_overlapping_or_contiguous_eq|].
  rewrite (update_vacation_full_eq _ _ _ _ _ _ _ _ Hemp Hrow Hown Hrange). cbv zeta.
  set (M := mergeable_set session employee_id (VacationBase.mk sd ed t)).
  split.
  - intros ->. reflexivity.
  - intros first final Hfirst Hfinal.
    rewrite (merge_bounds_Some _ _ _ _ _ Hfirst Hfinal).
    assert (∀ s : Session, ∀ m : Vacation, m ∈ M →
              delete_all M (vacations s) !! m.1 = None) as Hgone.
    { intros s m Hm. rewrite lookup_delete_all, decide_True; [done|].
      apply list_elem_of_fmap. by exists m. }
    split.
    + intros Hnot. rewrite decide_False by done.
      eexists. split; [reflexivity|]. simpl.
      split; [apply lookup_insert_eq|]. split.
      * intros m Hm. rewrite lookup_insert_ne; [by apply Hgone|].
        intros ->. apply Hnot. apply list_elem_of_fmap. by exists m.
      * intros i Hi HiM. rewrite lookup_insert_ne by done.
        by rewrite lookup_delete_all, decide_False.
    + intros Hin. rewrite decide_True by done.
      eexists. split; [reflexivity|]. simpl.
      split; [by rewrite lookup_delete_all, decide_True|].
      split; [by apply Hgone|].
      intros i HiM. by rewrite lookup_delete_all, decide_False.
Qed.

Lemma update_vacation_full_path_witness :
  ∃ M,
    VacationRepository.get_overlapping_or_contiguous 7
      (Some Paid) (Some 5) (Some 19) sample_store = (Ok M, sample_store)
    ∧ (M = [] →
       VacationService.update_vacation 7 2 (full_update 5 19 Paid) sample_store
       = (Ok (Some (2%nat, VacationModel.mk 7 Paid 5 19)),
          set_vacations sample_store
            (<[2%nat := VacationModel.mk 7 Paid 5 19]> (vacations sample_store))))
    ∧ (∀ first final, head M = Some first → last M = Some final →
       let merged :=
         VacationModel.mk 7 Paid
           (Z.min 5 (vac_start first)) (Z.max 19 (vac_end final)) in
       (2%nat ∉ M.*1 →
        ∃ session',
          VacationService.update_vacation 7 2 (full_update 5 19 Paid) sample_store
          = (Ok (Some (2%nat, merged)), session')
          ∧ vacations session' !! 2%nat = Some merged
          ∧ (∀ m, m ∈ M → vacations session' !! m.1 = None)
          ∧ (∀ i, i ≠ 2%nat → i ∉ M.*1 →
               vacations session' !! i = vacations sample_store !! i))
       ∧ (2%nat ∈ M.*1 →
          ∃ session',
            VacationService.update_vacation 7 2 (full_update 5 19 Paid) sample_store
            = (Ok None, session')
            ∧ vacations session' !! 2%nat = None
            ∧ (∀ m, m ∈ M → vacations session' !! m.1 = None)
            ∧ (∀ i, i ∉ M.*1 → vacations session' !! i = vacations sample_store !! i))).
Proof.
  apply (update_vacation_full_path sample_store 7 employee_7 2
           (VacationModel.mk 7 Unpaid 6 8) 5 19 Paid).
  - vm_compute. reflexivity.
  - vm_compute. reflexivity.
  - reflexivity.
  - unfold in_range, date_min, date_max. lia.
Defined.

(** At the last date the same update raises and nothing is written. *)
Example update_vacation_raises_at_date_max :
  VacationService.update_vacation 7 2 (full_update 5 date_max Paid) sample_store
  = (Raise OverflowError, sample_store).
Proof.
  apply (update_vacation_full_overflow _ _ employee_7 _ (VacationModel.mk 7 Unpaid 6 8));
    [done|done|done|].
  unfold in_range. lia.
Qed.

(** The update of the sample above, evaluated: the Unpaid vacation 2 becomes
    Paid [[1, 24]] and the two Paid vacations it touches are gone. *)
Example update_vacation_full_sample :
  let run := VacationService.update_vacation 7 2 (full_update 5 19 Paid) sample_store in
  run.1 = Ok (Some (2%nat, VacationModel.mk 7 Paid 1 24))
  ∧ vacations run.2
    = {[ 2%nat := VacationModel.mk 7 Paid 1 24; 3%nat := VacationModel.mk 8 Paid 5 9 ]}.
Proof. vm_compute. split; reflexivity. Qed.

Lemma selected_without_type employee_id sd ed (v : Vacation) :
  VacationRepository.selected employee_id None sd ed v = false.
Proof.
  unfold VacationRepository.selected.
  rewrite (bool_decide_eq_false_2 (Some (VacationModel.type v.2) = None)) by done.
  by rewrite andb_false_r.
Qed.

(** X9. An update of an employee's own vacation that supplies both dates,
    inside the range of the date arithmetic, and leaves [type] unset never
    merges: the query is made without a type and selects nothing, so the row
    takes the two dates as they are and keeps its type, nothing is deleted,
    and the patched row is returned. *)
Theorem update_vacation_unset_type session employee_id employee vacation_id row sd ed :
  employees session !! employee_id = Some employee →
  vacations session !! vacation_id = Some row →
  VacationModel.employee_id row = employee_id →
  in_range sd ed →
  VacationService.update_vacation employee_id vacation_id
    (VacationUpdate.mk (Some (Some sd)) (Some (Some ed)) None) session
  = (Ok (Some (vacation_id, VacationModel.mk employee_id (VacationModel.type row) sd ed)),
     set_vacations session
       (<[vacation_id := VacationModel.mk employee_id (VacationModel.type row) sd ed]>
          (vacations session))).
Proof.
  intros Hemp Hrow Hown Hrange.
  unfold VacationService.update_vacation, bind.
  rewrite (get_employee_found _ _ _ Hemp).
  unfold VacationService.employee_vacations, VacationRepository.get_by_employee.
  cbn [fst snd].
  pose proof (employee_vacation_found _ _ _ _ Hrow Hown) as Hfound.
  destruct (filter (λ v, vac_id v = vacation_id) _) as [|? ?]; [done|].
  clear Hfound. unfold VacationUpdate.attr.
  cbn [VacationUpdate.start_date VacationUpdate.end_date VacationUpdate.type mjoin
       option_join].
  rewrite get_overlapping_or_contiguous_eq by done.
  rewrite (filter_none _ (map_to_list (vacations session)));
    [|intros v _; by rewrite selected_without_type].
  change (merge_sort start_date_le []) with (@nil Vacation).
  unfold VacationRepository.patch, bind, VacationRepository.get_by_id.
  rewrite Hrow. simpl. by rewrite Hown.
Qed.

Lemma update_vacation_unset_type_witness :
  VacationService.update_vacation 7 0
    (VacationUpdate.mk (Some (Some 1)) (Some (Some 5)) None) two_paid_store
  = (Ok (Some (0%nat, VacationModel.mk 7
                        (VacationModel.type (VacationModel.mk 7 Paid 1 3)) 1 5)),
     set_vacations two_paid_store
       (<[0%nat := VacationModel.mk 7 (VacationModel.type (VacationModel.mk 7 Paid 1 3)) 1 5]>
          (vacations two_paid_store))).
Proof.
  apply (update_vacation_unset_type two_paid_store 7 employee_7 0
           (VacationModel.mk 7 Paid 1 3) 1 5).
  - vm_compute. reflexivity.
  - vm_compute. reflexivity.
  - reflexivity.
  - unfold in_range, date_min, date_max. lia.
Defined.

(** X10. An update of an employee's own vacation in which the start date or
    the end date is unset, or set to [None], raises before anything is
    written: the query compares a column with [None]. *)
Theorem update_vacation_unset_date session employee_id employee vacation_id row vacation_data :
  employees session !! employee_id = Some employee →
  vacations session !! vacation_id = Some row →
  VacationModel.employee_id row = employee_id →
  VacationUpdate.attr (VacationUpdate.start_date vacation_data) = None
  ∨ VacationUpdate.attr (VacationUpdate.end_date vacation_data) = None →
  VacationService.update_vacation employee_id vacation_id vacation_data session
  = (Raise ArgumentError, session).
Proof.
  intros Hemp Hrow Hown Hunset.
  unfold VacationService.update_vacation, bind.
  rewrite (get_employee_found _ _ _ Hemp).
  unfold VacationService.employee_vacations, VacationRepository.get_by_employee.
  cbn [fst snd].
  pose proof (employee_vacation_found _ _ _ _ Hrow Hown) as Hfound.
  destruct (filter (λ v, vac_id v = vacation_id) _) as [|? ?]; [done|].
  unfold VacationRepository.get_overlapping_or_contiguous.
  destruct Hunset as [-> | ->]; [done|].
  by destruct (VacationUpdate.attr (VacationUpdate.start_date vacation_data)).
Qed.

Lemma update_vacation_unset_date_witness :
  VacationService.update_vacation 7 1
    (VacationUpdate.mk None (Some (Some 9)) None) sample_store
  = (Raise ArgumentError, sample_store).
Proof.
  apply (update_vacation_unset_date sample_store 7 employee_7 1
           (VacationModel.mk 7 Paid 1 4) (VacationUpdate.mk None (Some (Some 9)) None)).
  - vm_compute. reflexivity.
  - vm_compute. reflexivity.
  - reflexivity.
  - left. reflexivity.
Defined.

(** X26. An update of an employee's own vacation that supplies both dates,
    the start being [date.min] or the end being [date.max], raises
    [OverflowError] while the filter of the query is built, whatever the
    type field holds: nothing is written, and the handler of the PATCH
    route, which has no [except] clause, lets the error out. *)
Theorem update_vacation_date_bounds
    session employee_id employee vacation_id row vacation_data sd ed :
  employees session !! employee_id = Some employee →
  vacations session !! vacation_id = Some row →
  VacationModel.employee_id row = employee_id →
  VacationUpdate.attr (VacationUpdate.start_date vacation_data) = Some sd →
  VacationUpdate.attr (VacationUpdate.end_date vacation_data) = Some ed →
  sd = date_min ∨ ed = date_max →
  VacationService.update_vacation employee_id vacation_id vacation_data session
  = (Raise OverflowError, session)
  ∧ EmployeeRoutes.patch_vacation employee_id vacation_id vacation_data session
    = (Failed (Uncaught OverflowError), session).
Proof.
  intros Hemp Hrow Hown Hsd Hed Hbound.
  assert (VacationService.update_vacation employee_id vacation_id vacation_data session
          = (Raise OverflowError, session)) as Hrun.
  { unfold VacationService.update_vacation, bind.
    rewrite (get_employee_found _ _ _ Hemp).
    unfold VacationService.employee_vacations, VacationRepository.get_by_employee.
    cbn [fst snd].
    pose proof (employee_vacation_found _ _ _ _ Hrow Hown) as Hfound.
    destruct (filter (λ v, vac_id v = vacation_id) _) as [|? ?]; [done|].
    rewrite Hsd, Hed.
    rewrite get_overlapping_or_contiguous_overflow; [done|].
    unfold in_range. lia. }
  split; [done|].
  unfold EmployeeRoutes.patch_vacation, EmployeeRoutes.no_except. by rewrite Hrun.
Qed.

Lemma update_vacation_date_bounds_witness :
  VacationService.update_vacation 7 2
    (VacationUpdate.mk (Some (Some 5)) (Some (Some date_max)) None) sample_store
  = (Raise OverflowError, sample_store)
  ∧ EmployeeRoutes.patch_vacation 7 2
      (VacationUpdate.mk (Some (Some 5)) (Some (Some date_max)) None) sample_store
    = (Failed (Uncaught OverflowError), sample_store).
Proof.
  apply (update_vacation_date_bounds sample_store 7 employee_7 2
           (VacationModel.mk 7 Unpaid 6 8)
           (VacationUpdate.mk (Some (Some 5)) (Some (Some date_max)) None) 5 date_max).
  - vm_compute. reflexivity.
  - vm_compute. reflexivity.
  - reflexivity.
  - reflexivity.
  - reflexivity.
  - right. reflexivity.
Defined.

(** ** The invariant along sequences of calls *)

Lemma antichain_after_delete session employee_id vacation_id r session' :
  antichain session →
  VacationService.delete_vacation employee_id vacation_id session = (r, session') →
  antichain session'.
Proof.
  intros Hanti Hrun.
  unfold VacationService.delete_vacation, bind in Hrun.
  destruct (VacationService.__get_employee employee_id session) as [[employee|e] s1] eqn:Hget.
  - assert (s1 = session) as ->.
    { unfold VacationService.__get_employee, bind, EmployeeRepository.get in Hget.
      destruct (employees session !! employee_id); simpl in Hget;
        unfold ret, raise in Hget; by simplify_eq. }
    unfold VacationRepository.get, VacationRepository.delete, bind,
      VacationRepository.get_by_id in Hrun.
    destruct (vacations session !! vacation_id) as [row|] eqn:Hrow; simpl in Hrun;
      unfold ret, raise in Hrun; [|by injection Hrun as _ <-].
    rewrite Hrow in Hrun. simpl in Hrun. injection Hrun as _ <-.
    intros i v Hi j w Hj. simpl in Hi, Hj.
    apply lookup_delete_Some in Hi as [_ Hi]. apply lookup_delete_Some in Hj as [_ Hj].
    by apply (Hanti i v Hi j w Hj).
  - unfold VacationService.__get_employee, bind, EmployeeRepository.get in Hget.
    destruct (employees session !! employee_id); simpl in Hget;
      unfold ret, raise in Hget; by simplify_eq.
Qed.

Lemma full_step_step s s' : full_step s s' → step s s'.
Proof.
  intros [employee_id vacation_data s1 r s1' Hvalid Hrun
         |employee_id vacation_id sd ed t s1 r s1' Hvalid Hrun
         |employee_id vacation_id s1 r s1' Hrun].
  - by eapply step_create.
  - eapply step_update; [|exact Hrun].
    unfold VacationUpdate.validate_dates, full_update. simpl.
    apply negb_true_iff, Z.ltb_ge. done.
  - by eapply step_delete.
Qed.

(** X14. Starting without vacations, every sequence of [create_vacation]
    calls on validated candidates, [update_vacation] calls that supply all
    three fields with [start_date <= end_date], and [delete_vacation] calls
    leaves a store in which no two vacations of one employee and one type
    overlap or are one day apart, whether the single calls return or
    raise. *)
Theorem full_steps_antichain s0 session :
  vacations s0 = ∅ →
  rtc full_step s0 session →
  antichain session.
Proof.
  intros Hempty Hsteps.
  assert (store_ok s0 ∧ antichain s0) as Hinv.
  { unfold store_ok, store_well_formed, keys_fresh, antichain. rewrite Hempty.
    repeat split; apply map_Forall_empty. }
  clear Hempty.
  induction Hsteps as [|s1 s2 s3 Hstep _ IH]; [by destruct Hinv|].
  apply IH. destruct Hinv as [Hok Hanti]. split.
  - eapply step_store_ok; [by apply full_step_step|done].
  - destruct Hok as [Hwf _].
    destruct Hstep as [employee_id vacation_data s1 r s1' Hvalid Hrun
                      |employee_id vacation_id sd ed t s1 r s1' Hvalid Hrun
                      |employee_id vacation_id s1 r s1' Hrun].
    + by eapply antichain_after_create.
    + by eapply antichain_after_full_update.
    + by eapply antichain_after_delete.
Qed.

Lemma full_steps_antichain_witness :
  antichain
    (VacationService.update_vacation 7 0 (full_update 4 5 Paid)
       (VacationService.create_vacation 7 (VacationBase.mk 6 8 Paid)
          (VacationService.create_vacation 7 (VacationBase.mk 1 3 Paid) empty_store).2).2).2.
Proof.
  apply (full_steps_antichain empty_store).
  - reflexivity.
  - eapply rtc_l.
    { apply (full_step_create 7 (VacationBase.mk 1 3 Paid) empty_store
               (VacationService.create_vacation 7 (VacationBase.mk 1 3 Paid) empty_store).1).
      - unfold VacationBase.valid. simpl. lia.
      - apply surjective_pairing. }
    eapply rtc_l.
    { apply (full_step_create 7 (VacationBase.mk 6 8 Paid) _
               (VacationService.create_vacation 7 (VacationBase.mk 6 8 Paid)
                  (VacationService.create_vacation 7 (VacationBase.mk 1 3 Paid)
                     empty_store).2).1).
      - unfold VacationBase.valid. simpl. lia.
      - apply surjective_pairing. }
    eapply rtc_l; [|apply rtc_refl].
    apply (full_step_update 7 0 4 5 Paid _
             (VacationService.update_vacation 7 0 (full_update 4 5 Paid)
                (VacationService.create_vacation 7 (VacationBase.mk 6 8 Paid)
                   (VacationService.create_vacation 7 (VacationBase.mk 1 3 Paid)
                      empty_store).2).2).1).
    + lia.
    + apply surjective_pairing.
Defined.

(** ** Dates of the stored vacations *)

Lemma merged_in_range session (M : list Vacation) sd ed new_start new_end :
  store_in_range session →
  (∀ v : Vacation, v ∈ M → vacations session !! v.1 = Some v.2) →
  in_range sd ed →
  default (sd, ed) (merge_bounds sd ed M) = (new_start, new_end) →
  in_range new_start new_end.
Proof.
  intros Hin HM Hrange Hb. unfold merge_bounds in Hb.
  destruct (head M) as [first|] eqn:Hfirst; [|simpl in Hb; by simplify_eq].
  destruct (last M) as [final|] eqn:Hfinal; [|simpl in Hb; by simplify_eq].
  simpl in Hb. injection Hb as <- <-.
  apply head_Some_elem_of, HM in Hfirst. apply last_Some_elem_of, HM in Hfinal.
  apply Hin in Hfirst. apply Hin in Hfinal.
  unfold in_range, vac_start, vac_end in *. simpl in *. lia.
Qed.

Lemma store_in_range_consolidate session (M : list Vacation) k row :
  store_in_range session →
  in_range (VacationModel.start_date row) (VacationModel.end_date row) →
  map_Forall (λ _ row, in_range (VacationModel.start_date row)
                         (VacationModel.end_date row))
    (<[k := row]> (delete_all M (vacations session))).
Proof.
  intros Hin Hrow. apply map_Forall_insert_2; [done|].
  intros i w Hi. rewrite lookup_delete_all in Hi.
  destruct (decide (i ∈ M.*1)); [done|]. by apply (Hin i w).
Qed.

Lemma create_vacation_in_range employee_id vacation_data :
  VacationBase.valid vacation_data →
  preserves store_in_range (VacationService.create_vacation employee_id vacation_data).
Proof.
  intros Hvalid session r session' Hin Hrun.
  destruct (employees session !! employee_id) as [employee|] eqn:Hemp;
    [|rewrite (create_vacation_unknown_owner_eq _ _ _ Hemp) in Hrun;
      by injection Hrun as _ <-].
  destruct (decide (in_range (VacationBase.start_date vacation_data)
                      (VacationBase.end_date vacation_data))) as [Hrange|Hrange];
    [|rewrite (create_vacation_overflow _ _ _ _ Hemp Hrange) in Hrun;
      by injection Hrun as _ <-].
  rewrite (create_vacation_eq _ _ _ _ Hemp Hvalid Hrange) in Hrun. cbv zeta in Hrun.
  destruct (default _ _) as [new_start new_end] eqn:Hb.
  injection Hrun as _ <-. unfold store_in_range. cbn [vacations].
  apply store_in_range_consolidate; [done|]. simpl.
  apply (merged_in_range session _ _ _ _ _ Hin) in Hb; [done| |done].
  intros v Hv. by apply elem_of_selected in Hv as [Hv _].
Qed.

Lemma attr_Some {A} (f : option (option A)) (x : A) :
  VacationUpdate.attr f = Some x → f = Some (Some x).
Proof. destruct f as [[y|]|]; simpl; congruence. Qed.

Lemma patch_in_range vacation_id obj_in sd ed :
  VacationUpdate.start_date obj_in = Some (Some sd) →
  VacationUpdate.end_date obj_in = Some (Some ed) →
  in_range sd ed →
  preserves store_in_range (VacationRepository.patch vacation_id obj_in).
Proof.
  intros Hsd Hed Hrange s r s' Hin Hrun.
  unfold VacationRepository.patch, bind, VacationRepository.get_by_id in Hrun.
  destruct (vacations s !! vacation_id) as [row|] eqn:Hrow; simpl in Hrun;
    unfold ret in Hrun; [|by simplify_eq].
  destruct (VacationRepository.setattrs obj_in row) as [row'|] eqn:Hset;
    [|by simplify_eq].
  injection Hrun as _ <-. unfold VacationRepository.setattrs in Hset.
  rewrite Hsd, Hed in Hset. simpl in Hset.
  unfold store_in_range. cbn [vacations set_vacations].
  apply map_Forall_insert_2; [|done].
  destruct (VacationUpdate.type obj_in) as [[ty|]|]; simpl in Hset; by simplify_eq.
Qed.

Lemma update_vacation_in_range employee_id vacation_id vacation_data :
  preserves store_in_range
    (VacationService.update_vacation employee_id vacation_id vacation_data).
Proof.
  intros session r session' Hin Hrun.
  destruct (employees session !! employee_id) as [employee|] eqn:Hemp;
    [|rewrite (update_vacation_unknown_owner _ _ _ _ Hemp) in Hrun;
      by injection Hrun as _ <-].
  unfold VacationService.update_vacation, bind in Hrun.
  rewrite (get_employee_found _ _ _ Hemp) in Hrun.
  unfold VacationService.employee_vacations, VacationRepository.get_by_employee in Hrun.
  cbn [fst snd] in Hrun.
  destruct (filter (λ v, vac_id v = vacation_id) _) as [|? ?];
    [by injection Hrun as _ <-|].
  destruct (VacationUpdate.attr (VacationUpdate.start_date vacation_data))
    as [sd|] eqn:Hsd; [|by injection Hrun as _ <-].
  destruct (VacationUpdate.attr (VacationUpdate.end_date vacation_data))
    as [ed|] eqn:Hed; [|by injection Hrun as _ <-].
  apply attr_Some in Hsd, Hed.
  destruct (decide (in_range sd ed)) as [Hrange|Hrange];
    [|rewrite get_overlapping_or_contiguous_overflow in Hrun by done;
      by injection Hrun as _ <-].
  rewrite get_overlapping_or_contiguous_eq in Hrun by done.
  set (M := merge_sort start_date_le _) in Hrun.
  assert (HM : ∀ v : Vacation, v ∈ M → vacations session !! v.1 = Some v.2).
  { intros v Hv. by apply elem_of_selected in Hv as [Hv _]. }
  destruct M as [|first rest] eqn:HMeq.
  - by apply (patch_in_range _ _ sd ed Hsd Hed Hrange _ _ _ Hin Hrun).
  - destruct (merge_bounds sd ed (first :: rest)) as [[new_start new_end]|] eqn:Hb.
    + rewrite for_each_delete in Hrun.
      assert (in_range new_start new_end) as Hnew.
      { apply (merged_in_range session (first :: rest) sd ed); try done.
        by rewrite Hb. }
      eapply (patch_in_range vacation_id
                (VacationUpdate.mk (Some (Some new_start)) (Some (Some new_end))
                   (VacationUpdate.type vacation_data))
                new_start new_end eq_refl eq_refl Hnew); [|exact Hrun].
      intros i w Hi. cbn [vacations set_vacations] in Hi.
      rewrite lookup_delete_all in Hi.
      destruct (decide (i ∈ (first :: rest).*1)); [done|]. by apply (Hin i w).
    + by apply (patch_in_range _ _ sd ed Hsd Hed Hrange _ _ _ Hin Hrun).
Qed.

Lemma delete_vacation_in_range employee_id vacation_id :
  preserves store_in_range (VacationService.delete_vacation employee_id vacation_id).
Proof.
  intros session r session' Hin Hrun.
  unfold VacationService.delete_vacation, bind in Hrun.
  destruct (employees session !! employee_id) as [employee|] eqn:Hemp;
    [rewrite (get_employee_found _ _ _ Hemp) in Hrun
    |rewrite (get_employee_missing _ _ Hemp) in Hrun; by injection Hrun as _ <-].
  unfold VacationRepository.get, VacationRepository.delete, bind,
    VacationRepository.get_by_id in Hrun.
  destruct (vacations session !! vacation_id) as [row|] eqn:Hrow; simpl in Hrun;
    unfold ret, raise in Hrun; [|by injection Hrun as _ <-].
  rewrite Hrow in Hrun. simpl in Hrun. injection Hrun as _ <-.
  unfold store_in_range. simpl. by apply map_Forall_delete.
Qed.

(** X23. Every store the service can build from a store without vacations,
    by calls of [create_vacation], [update_vacation] and [delete_vacation] on
    validated input, holds only start dates after [date.min] and end dates
    before [date.max]: a call with a first or a last date raises in the
    query, before anything is written, and merged bounds are taken from the
    candidate and from stored rows. *)
Theorem reachable_in_range session :
  reachable session → store_in_range session.
Proof.
  intros (s0 & Hempty & Hsteps).
  assert (store_in_range s0) as Hin0.
  { unfold store_in_range. rewrite Hempty. apply map_Forall_empty. }
  clear Hempty. induction Hsteps as [|s1 s2 s3 Hstep _ IH]; [done|].
  apply IH.
  destruct Hstep as [employee_id vacation_data s1 r s1' Hvalid Hrun
                    |employee_id vacation_id vacation_data s1 r s1' Hvalid Hrun
                    |employee_id vacation_id s1 r s1' Hrun].
  - by eapply create_vacation_in_range.
  - by eapply update_vacation_in_range.
  - by eapply delete_vacation_in_range.
Qed.

Lemma reachable_in_range_witness :
  store_in_range
    (VacationService.update_vacation 7 0 (full_update 2 date_max Paid)
       (VacationService.create_vacation 7 (VacationBase.mk 1 3 Paid) empty_store).2).2.
Proof.
  apply (reachable_in_range
           (VacationService.update_vacation 7 0 (full_update 2 date_max Paid)
              (VacationService.create_vacation 7 (VacationBase.mk 1 3 Paid)
                 empty_store).2).2).
  exists empty_store. split; [reflexivity|].
  eapply rtc_l.
  { apply (step_create 7 (VacationBase.mk 1 3 Paid) empty_store
             (VacationService.create_vacation 7 (VacationBase.mk 1 3 Paid) empty_store).1).
    - unfold VacationBase.valid. simpl. lia.
    - apply surjective_pairing. }
  eapply rtc_l; [|apply rtc_refl].
  apply (step_update 7 0 (full_update 2 date_max Paid) _
           (VacationService.update_vacation 7 0 (full_update 2 date_max Paid)
              (VacationService.create_vacation 7 (VacationBase.mk 1 3 Paid)
                 empty_store).2).1).
  - reflexivity.
  - apply surjective_pairing.
Defined.

(** The update of the witness raises and leaves Paid [[1, 3]] as it was. *)
Example update_vacation_at_date_max_run :
  let s1 := (VacationService.create_vacation 7 (VacationBase.mk 1 3 Paid) empty_store).2 in
  let run := VacationService.update_vacation 7 0 (full_update 2 date_max Paid) s1 in
  run.1 = Raise OverflowError
  ∧ vacations run.2 = {[ 0%nat := VacationModel.mk 7 Paid 1 3 ]}.
Proof. vm_compute. split; reflexivity. Qed.

(** ** What a create changes and what it covers *)

(** X15. [create_vacation] for a validated candidate touches only
    vacations of the given employee and of the candidate's type, whether it
    returns or raises: every stored vacation of another employee or of the
    other type is stored unchanged afterwards, and the employees are as
    before. *)
Theorem create_vacation_frame session employee_id vacation_data i row r session' :
  VacationBase.valid vacation_data →
  keys_fresh session →
  vacations session !! i = Some row →
  VacationModel.employee_id row ≠ employee_id
  ∨ VacationModel.type row ≠ VacationBase.type vacation_data →
  VacationService.create_vacation employee_id vacation_data session = (r, session') →
  vacations session' !! i = Some row
  ∧ employees session' = employees session.
Proof.
  intros Hvalid Hfresh Hrow Hother Hrun.
  destruct (employees session !! employee_id) as [employee|] eqn:Hemp;
    [|rewrite (create_vacation_unknown_owner_eq _ _ _ Hemp) in Hrun;
      by injection Hrun as _ <-].
  destruct (decide (in_range (VacationBase.start_date vacation_data)
                      (VacationBase.end_date vacation_data))) as [Hrange|Hrange];
    [|rewrite (create_vacation_overflow _ _ _ _ Hemp Hrange) in Hrun;
      by injection Hrun as _ <-].
  rewrite (create_vacation_eq _ _ _ _ Hemp Hvalid Hrange) in Hrun. cbv zeta in Hrun.
  destruct (default _ _) as [new_start new_end].
  injection Hrun as _ <-. simpl. split; [|done].
  rewrite lookup_insert_ne.
  - rewrite lookup_delete_all, decide_False; [done|].
    intros (m & -> & Hm)%list_elem_of_fmap.
    apply elem_of_selected in Hm as [Hm Hsel].
    apply selected_spec in Hsel as (He & Ht & _).
    rewrite Hrow in Hm. injection Hm as Hm. rewrite <- Hm in He, Ht.
    destruct Hother; congruence.
  - intros <-. by rewrite (keys_fresh_next _ Hfresh) in Hrow.
Qed.

Lemma create_vacation_frame_witness :
  vacations (VacationService.create_vacation 7 (VacationBase.mk 5 19 Paid) sample_store).2
    !! 2%nat = Some (VacationModel.mk 7 Unpaid 6 8)
  ∧ employees (VacationService.create_vacation 7 (VacationBase.mk 5 19 Paid) sample_store).2
    = employees sample_store.
Proof.
  apply (create_vacation_frame sample_store 7 (VacationBase.mk 5 19 Paid) 2
           (VacationModel.mk 7 Unpaid 6 8)
           (VacationService.create_vacation 7 (VacationBase.mk 5 19 Paid) sample_store).1).
  - unfold VacationBase.valid. simpl. lia.
  - apply (bool_decide_unpack _). vm_compute. exact I.
  - vm_compute. reflexivity.
  - right. discriminate.
  - apply surjective_pairing.
Defined.

Lemma mergeable_set_well_formed session employee_id vacation_data :
  store_well_formed session →
  Forall well_formed (mergeable_set session employee_id vacation_data).
Proof.
  intros Hwf. apply Forall_forall. intros [i row] Hv.
  apply elem_of_selected in Hv as [Hv _]. by apply (Hwf i row).
Qed.

Lemma mergeable_set_pairwise session employee_id vacation_data :
  antichain session →
  pairwise_unmergeable (mergeable_set session employee_id vacation_data).
Proof.
  intros Hanti i j v w Hi Hj Hij.
  assert (v ∈ mergeable_set session employee_id vacation_data) as Hv
    by by eapply list_elem_of_lookup_2.
  assert (w ∈ mergeable_set session employee_id vacation_data) as Hw
    by by eapply list_elem_of_lookup_2.
  apply elem_of_selected in Hv as [Hv Hsv]. apply elem_of_selected in Hw as [Hw Hsw].
  apply selected_spec in Hsv as (Hev & Htv & _).
  apply selected_spec in Hsw as (Hew & Htw & _).
  assert (v.1 ≠ w.1) as Hkeys.
  { intros Heq. apply Hij.
    apply (NoDup_lookup (mergeable_set session employee_id vacation_data) i j v);
      [apply NoDup_selected|done|].
    rewrite Hj. f_equal. destruct v, w. simpl in *. subst. congruence. }
  apply (Hanti _ _ Hv _ _ Hw Hkeys). split; simpl; congruence.
Qed.

(** ** The order of the query result *)

(** [ORDER BY start_date] leaves the order of rows with equal start dates to
    the database.  On a store with well-formed rows that satisfies the
    antichain invariant no two selected rows have the same start date, so
    the order is determined: every list that holds the selected rows and is
    ordered by start date is the list of the model. *)
Lemma order_by_start_date_unique session employee_id vacation_type sd ed l :
  store_well_formed session →
  antichain session →
  l ≡ₚ filter (λ v, VacationRepository.selected employee_id (Some vacation_type)
                      sd ed v = true)
         (map_to_list (vacations session)) →
  Sorted start_date_le l →
  l = merge_sort start_date_le
        (filter (λ v, VacationRepository.selected employee_id (Some vacation_type)
                        sd ed v = true)
           (map_to_list (vacations session))).
Proof.
  intros Hwf Hanti Hperm Hsorted.
  apply (Sorted_unique_strong start_date_le); [|done|by apply Sorted_merge_sort; apply _|].
  - intros [i v] [j w] Hv Hw Hle Hge.
    rewrite Hperm in Hv. apply list_elem_of_filter in Hv as [Hsv Hv].
    apply elem_of_map_to_list in Hv.
    apply elem_of_selected in Hw as [Hw Hsw]. simpl in Hw.
    apply selected_spec in Hsv as (Hev & Htv & _).
    apply selected_spec in Hsw as (Hew & Htw & _).
    simpl in Hev, Htv, Hew, Htw.
    pose proof (Hwf i v Hv) as Hwfv. pose proof (Hwf j w Hw) as Hwfw.
    unfold start_date_le, well_formed, vac_start, vac_end in *. simpl in *.
    destruct (decide (i = j)) as [->|Hij]; [congruence|].
    exfalso. apply (Hanti i v Hv j w Hw Hij); [split; simpl; congruence|].
    unfold mergeable. lia.
  - by rewrite merge_sort_Permutation.
Qed.

(** X24. On a store with well-formed rows that satisfies the antichain
    invariant the list the query returns is the only arrangement of its
    rows that is ordered by start date: no two of them start on the same
    day, so [ORDER BY start_date] leaves nothing to the database. *)
Theorem query_order_determined session employee_id vacation_type sd ed M session' l :
  store_well_formed session →
  antichain session →
  VacationRepository.get_overlapping_or_contiguous employee_id
    (Some vacation_type) (Some sd) (Some ed) session = (Ok M, session') →
  l ≡ₚ M →
  Sorted start_date_le l →
  l = M.
Proof.
  intros Hwf Hanti HM Hperm Hsorted.
  apply get_overlapping_or_contiguous_Ok in HM as (_ & -> & _).
  apply order_by_start_date_unique; try done.
  by rewrite Hperm, merge_sort_Permutation.
Qed.

Lemma query_order_determined_witness :
  [(1%nat, VacationModel.mk 7 Paid 1 4); (0%nat, VacationModel.mk 7 Paid 20 24)]
  = [(1%nat, VacationModel.mk 7 Paid 1 4); (0%nat, VacationModel.mk 7 Paid 20 24)].
Proof.
  apply (query_order_determined sample_store 7 Paid 5 19
           [(1%nat, VacationModel.mk 7 Paid 1 4); (0%nat, VacationModel.mk 7 Paid 20 24)]
           sample_store).
  - apply (bool_decide_unpack _). vm_compute. exact I.
  - apply (bool_decide_unpack _). vm_compute. exact I.
  - vm_compute. reflexivity.
  - reflexivity.
  - repeat constructor. unfold start_date_le, vac_start. simpl. lia.
Defined.

(** X16. On a store with well-formed rows that satisfies the antichain
    invariant, the vacation that [create_vacation] returns for a known
    employee and a validated candidate with dates inside the range of the
    date arithmetic covers exactly the days of the
    candidate and of the vacations of the mergeable set, which are the ones
    it replaces: no day is lost and none is added. *)
Theorem create_vacation_covers session employee_id employee vacation_data :
  employees session !! employee_id = Some employee →
  VacationBase.valid vacation_data →
  in_range (VacationBase.start_date vacation_data) (VacationBase.end_date vacation_data) →
  store_well_formed session →
  antichain session →
  ∃ M v session',
    VacationRepository.get_overlapping_or_contiguous employee_id
      (Some (VacationBase.type vacation_data))
      (Some (VacationBase.start_date vacation_data))
      (Some (VacationBase.end_date vacation_data)) session
    = (Ok M, session)
    ∧ VacationService.create_vacation employee_id vacation_data session = (Ok v, session')
    ∧ ∀ d, covers v d ↔
           VacationBase.start_date vacation_data ≤ d ≤ VacationBase.end_date vacation_data
           ∨ ∃ m, m ∈ M ∧ covers m d.
Proof.
  intros Hemp Hvalid Hrange Hwf Hanti.
  exists (mergeable_set session employee_id vacation_data).
  rewrite (create_vacation_eq _ _ _ _ Hemp Hvalid Hrange). cbv zeta.
  set (M := mergeable_set session employee_id vacation_data).
  pose proof (mergeable_set_well_formed session employee_id vacation_data Hwf) as HwfM.
  pose proof (mergeable_set_pairwise session employee_id vacation_data Hanti) as HantiM.
  fold M in HwfM, HantiM.
  destruct (merge_bounds _ _ M) as [[new_start new_end]|] eqn:Hb; simpl.
  - eexists. eexists. split; [by apply get_overlapping_or_contiguous_eq|].
    split; [reflexivity|].
    unfold merge_bounds in Hb.
    destruct (head M) as [first|] eqn:Hfirst; [|done].
    destruct (last M) as [final|] eqn:Hfinal; [|done].
    injection Hb as <- <-.
    pose proof (sorted_antichain_extremes M first final HwfM
                  (Sorted_merge_sort _ _) HantiM Hfirst Hfinal) as Hext.
    assert (∀ m : Vacation, m ∈ M →
              vac_start m ≤ vac_end m
              ∧ mergeable (VacationBase.start_date vacation_data)
                  (VacationBase.end_date vacation_data) (vac_start m) (vac_end m)) as HM.
    { intros m Hm. rewrite Forall_forall in HwfM.
      pose proof (HwfM m Hm) as Hwfm. split; [done|].
      apply elem_of_selected in Hm as [_ Hsel].
      apply selected_spec in Hsel as (_ & _ & Hoc).
      by apply overlapping_or_contiguous_mergeable. }
    pose proof (head_Some_elem_of _ _ Hfirst) as Hfin.
    pose proof (last_Some_elem_of _ _ Hfinal) as Hlin.
    destruct (HM _ Hfin) as [Hf1 Hf2]. destruct (HM _ Hlin) as [Hl1 Hl2].
    unfold VacationBase.valid in Hvalid.
    intros d. unfold covers, vac_start, vac_end in *. simpl in *. split.
    + intros Hd.
      destruct (decide (VacationBase.start_date vacation_data ≤ d
                        ≤ VacationBase.end_date vacation_data)); [by left|].
      right. unfold mergeable in Hf2, Hl2.
      destruct (decide (d < VacationBase.start_date vacation_data)).
      * exists first. split; [done|]. lia.
      * exists final. split; [done|]. lia.
    + intros [Hd|(m & Hm & Hd)]; [lia|].
      destruct (Hext m Hm) as [Hs He]. lia.
  - eexists. eexists. split; [by apply get_overlapping_or_contiguous_eq|].
    split; [reflexivity|].
    assert (M = []) as ->.
    { unfold merge_bounds in Hb. destruct M as [|v l]; [done|].
      simpl in Hb. destruct (last (v :: l)) eqn:Hl; [done|].
      by apply last_None in Hl. }
    intros d. unfold covers, vac_start, vac_end. simpl. split; [by left|].
    intros [Hd|(m & Hm & _)]; [done|]. by apply elem_of_nil in Hm.
Qed.

Lemma create_vacation_covers_witness :
  ∃ M v session',
    VacationRepository.get_overlapping_or_contiguous 7
      (Some (VacationBase.type (VacationBase.mk 5 19 Paid)))
      (Some (VacationBase.start_date (VacationBase.mk 5 19 Paid)))
      (Some (VacationBase.end_date (VacationBase.mk 5 19 Paid))) sample_store
    = (Ok M, sample_store)
    ∧ VacationService.create_vacation 7 (VacationBase.mk 5 19 Paid) sample_store
      = (Ok v, session')
    ∧ ∀ d, covers v d ↔
           VacationBase.start_date (VacationBase.mk 5 19 Paid) ≤ d
           ≤ VacationBase.end_date (VacationBase.mk 5 19 Paid)
           ∨ ∃ m, m ∈ M ∧ covers m d.
Proof.
  apply (create_vacation_covers sample_store 7 employee_7 (VacationBase.mk 5 19 Paid)).
  - vm_compute. reflexivity.
  - unfold VacationBase.valid. simpl. lia.
  - unfold in_range, date_min, date_max. simpl. lia.
  - apply (bool_decide_unpack _). vm_compute. exact I.
  - apply (bool_decide_unpack _). vm_compute. exact I.
Defined.



(** ** The handlers of an employee's vacations *)

(** X18. For a validated body, the handler that creates a vacation answers
    with status 404 and the detail [Employee not found], leaving the store
    unchanged, when the employee is unknown.  For a known employee and dates
    inside the range of the date arithmetic it returns the vacation the
    service created.  For a known employee and a first or last date the
    [OverflowError] of the query is no [ValueError]: it leaves the handler
    as it is, and the store is unchanged. *)
Theorem create_vacation_route_outcome validation_text session employee_id vacation_data :
  VacationBase.valid vacation_data →
  match employees session !! employee_id with
  | None =>
      EmployeeRoutes.create_vacation validation_text employee_id vacation_data session
      = (Failed (HTTPException 404 "Employee not found"), session)
  | Some _ =>
      if decide (in_range (VacationBase.start_date vacation_data)
                   (VacationBase.end_date vacation_data)) then
        ∃ v session',
          VacationService.create_vacation employee_id vacation_data session
          = (Ok v, session')
          ∧ EmployeeRoutes.create_vacation validation_text employee_id vacation_data session
            = (Returned v, session')
      else
        EmployeeRoutes.create_vacation validation_text employee_id vacation_data session
        = (Failed (Uncaught OverflowError), session)
  end.
Proof.
  intros Hvalid.
  unfold EmployeeRoutes.create_vacation, EmployeeRoutes.except_ValueError.
  destruct (employees session !! employee_id) as [employee|] eqn:Hemp.
  - destruct (decide (in_range _ _)) as [Hrange|Hrange].
    + rewrite (create_vacation_eq _ _ _ _ Hemp Hvalid Hrange). cbv zeta.
      destruct (default _ _) as [new_start new_end].
      eexists. eexists. split; reflexivity.
    + by rewrite (create_vacation_overflow _ _ _ _ Hemp Hrange).
  - by rewrite (create_vacation_unknown_owner_eq _ _ _ Hemp).
Qed.

Lemma create_vacation_route_outcome_witness :
  ∃ v session',
    VacationService.create_vacation 7 (VacationBase.mk 5 19 Paid) sample_store
    = (Ok v, session')
    ∧ EmployeeRoutes.create_vacation "invalid" 7 (VacationBase.mk 5 19 Paid) sample_store
      = (Returned v, session').
Proof.
  apply (create_vacation_route_outcome "invalid" sample_store 7 (VacationBase.mk 5 19 Paid)).
  unfold VacationBase.valid. simpl. lia.
Defined.

(** The two other outcomes of the handler on the sample store: an unknown
    employee, and a known employee with the first date. *)
Example create_vacation_route_unknown_employee :
  EmployeeRoutes.create_vacation "invalid" 9 (VacationBase.mk 5 19 Paid) sample_store
  = (Failed (HTTPException 404 "Employee not found"), sample_store).
Proof. vm_compute. reflexivity. Qed.

Example create_vacation_route_at_date_min :
  EmployeeRoutes.create_vacation "invalid" 7 (VacationBase.mk date_min 19 Paid) sample_store
  = (Failed (Uncaught OverflowError), sample_store).
Proof. vm_compute. reflexivity. Qed.

(** X19. For an unknown employee the handler that lists vacations answers
    with status 404, while the handlers that patch and delete a vacation
    have no [except] clause: the error of the service leaves them as it is.
    The store is unchanged in all three. *)
Theorem unknown_employee_routes validation_text session employee_id vacation_id
    vacation_data :
  employees session !! employee_id = None →
  EmployeeRoutes.get_vacations validation_text employee_id session
  = (Failed (HTTPException 404 "Employee not found"), session)
  ∧ EmployeeRoutes.patch_vacation employee_id vacation_id vacation_data session
    = (Failed (Uncaught (ValueError "Employee not found")), session)
  ∧ EmployeeRoutes.delete_vacation employee_id vacation_id session
    = (Failed (Uncaught (ValueError "Employee not found")), session).
Proof.
  intros Hemp.
  unfold EmployeeRoutes.get_vacations, EmployeeRoutes.patch_vacation,
    EmployeeRoutes.delete_vacation, EmployeeRoutes.except_ValueError,
    EmployeeRoutes.no_except.
  rewrite (update_vacation_unknown_owner _ _ _ _ Hemp).
  unfold VacationService.get_vacations_by_employee_id, VacationService.delete_vacation,
    bind.
  rewrite (get_employee_missing _ _ Hemp). done.
Qed.

Lemma unknown_employee_routes_witness :
  EmployeeRoutes.get_vacations "invalid" 9 sample_store
  = (Failed (HTTPException 404 "Employee not found"), sample_store)
  ∧ EmployeeRoutes.patch_vacation 9 1 (full_update 5 19 Paid) sample_store
    = (Failed (Uncaught (ValueError "Employee not found")), sample_store)
  ∧ EmployeeRoutes.delete_vacation 9 1 sample_store
    = (Failed (Uncaught (ValueError "Employee not found")), sample_store).
Proof.
  apply (unknown_employee_routes "invalid" sample_store 9 1 (full_update 5 19 Paid)).
  vm_compute. reflexivity.
Defined.

(** ** Updates and creates that meet the stored vacation again *)

(** X20. An update of an employee's own vacation that supplies all three
    fields, keeps the type and gives a range, inside the range of the date
    arithmetic, that overlaps the stored range or is one day apart from it
    finds the vacation itself in the mergeable
    set: the vacation is deleted, [None] is returned and no row with its id
    is left. *)
Theorem update_vacation_self_absorbed
    session employee_id employee vacation_id row sd ed :
  employees session !! employee_id = Some employee →
  vacations session !! vacation_id = Some row →
  VacationModel.employee_id row = employee_id →
  VacationModel.start_date row ≤ VacationModel.end_date row →
  mergeable sd ed (VacationModel.start_date row) (VacationModel.end_date row) →
  in_range sd ed →
  ∃ session',
    VacationService.update_vacation employee_id vacation_id
      (full_update sd ed (VacationModel.type row)) session
    = (Ok None, session')
    ∧ vacations session' !! vacation_id = None.
Proof.
  intros Hemp Hrow Hown Hwf Hm Hrange.
  rewrite (update_vacation_full_eq _ _ _ _ _ _ _ _ Hemp Hrow Hown Hrange). cbv zeta.
  set (M := mergeable_set session employee_id
              (VacationBase.mk sd ed (VacationModel.type row))).
  assert ((vacation_id, row) ∈ M) as Hin.
  { apply elem_of_selected. split; [done|].
    apply selected_spec. repeat split; try done.
    by apply overlapping_or_contiguous_mergeable. }
  assert (vacation_id ∈ M.*1) as Hkey.
  { apply list_elem_of_fmap. by exists (vacation_id, row). }
  destruct M as [|first rest] eqn:HM; [by apply elem_of_nil in Hin|].
  destruct (merge_bounds_cons sd ed first rest) as (final & _ & ->).
  rewrite decide_True by done.
  eexists. split; [reflexivity|]. cbn [vacations set_vacations].
  by rewrite lookup_delete_all, decide_True.
Qed.

Lemma update_vacation_self_absorbed_witness :
  ∃ session',
    VacationService.update_vacation 7 1
      (full_update 2 6 (VacationModel.type (VacationModel.mk 7 Paid 1 4))) sample_store
    = (Ok None, session')
    ∧ vacations session' !! 1%nat = None.
Proof.
  apply (update_vacation_self_absorbed sample_store 7 employee_7 1
           (VacationModel.mk 7 Paid 1 4) 2 6).
  - vm_compute. reflexivity.
  - vm_compute. reflexivity.
  - reflexivity.
  - simpl. lia.
  - unfold mergeable. simpl. lia.
  - unfold in_range, date_min, date_max. lia.
Defined.

(** X21. On a store with well-formed rows that satisfies the antichain
    invariant, creating a validated candidate, with dates inside the range
    of the date arithmetic, whose days a stored vacation of the same
    employee and type already covers replaces that vacation by
    an equal one under a new key and returns it: the ranges stored for every
    employee and type are the same as before. *)
Theorem create_vacation_covered session employee_id employee vacation_data k row :
  employees session !! employee_id = Some employee →
  VacationBase.valid vacation_data →
  in_range (VacationBase.start_date vacation_data) (VacationBase.end_date vacation_data) →
  keys_fresh session →
  store_well_formed session →
  antichain session →
  vacations session !! k = Some row →
  VacationModel.employee_id row = employee_id →
  VacationModel.type row = VacationBase.type vacation_data →
  VacationModel.start_date row ≤ VacationBase.start_date vacation_data →
  VacationBase.end_date vacation_data ≤ VacationModel.end_date row →
  ∃ session',
    VacationService.create_vacation employee_id vacation_data session
    = (Ok (next_uuid session, row), session')
    ∧ vacations session' = <[next_uuid session := row]> (base.delete k (vacations session))
    ∧ ∀ e t, ranges session' e t ≡ₚ ranges session e t.
Proof.
  intros Hemp Hvalid Hrange Hfresh Hwf Hanti Hrow He Ht Hs Hend.
  unfold VacationBase.valid in Hvalid.
  set (M := mergeable_set session employee_id vacation_data).
  assert (HM : M = [(k, row)]).
  { apply singleton_of_NoDup.
    - apply NoDup_selected.
    - apply elem_of_selected. split; [done|].
      apply selected_spec. repeat split; try done.
      apply overlapping_or_contiguous_spec. left.
      unfold vac_start, vac_end. simpl. lia.
    - intros [j w] Hy. apply elem_of_selected in Hy as [Hy Hsel]. simpl in Hy.
      apply selected_spec in Hsel as (Hew & Htw & Hoc). simpl in Hew, Htw.
      pose proof (Hwf j w Hy) as Hwfw.
      apply overlapping_or_contiguous_mergeable in Hoc; [|done].
      destruct (decide (j = k)) as [->|Hjk]; [congruence|].
      exfalso. apply (Hanti j w Hy k row Hrow Hjk); [split; simpl; congruence|].
      unfold mergeable, well_formed, vac_start, vac_end in *. simpl in *. lia. }
  pose proof (keys_fresh_next _ Hfresh) as Hnew.
  assert (Hne : k ≠ next_uuid session) by (intros ->; congruence).
  rewrite (create_vacation_eq _ _ _ _ Hemp Hvalid Hrange). cbv zeta. fold M. rewrite HM.
  unfold merge_bounds, vac_start, vac_end. simpl.
  rewrite (Z.min_r _ _ Hs), (Z.max_r _ _ Hend).
  assert (VacationModel.mk employee_id (VacationBase.type vacation_data)
            (VacationModel.start_date row) (VacationModel.end_date row) = row) as ->.
  { destruct row. simpl in *. congruence. }
  eexists. split; [reflexivity|]. simpl. split; [done|].
  intros e t. unfold ranges. simpl.
  set (P := λ v : Vacation, VacationModel.employee_id v.2 = e ∧ VacationModel.type v.2 = t).
  assert (filter P (map_to_list (<[next_uuid session := row]>
                                   (base.delete k (vacations session))))
          ≡ₚ filter P ((next_uuid session, row)
                        :: map_to_list (base.delete k (vacations session)))) as Hins.
  { apply filter_Permutation, map_to_list_insert. by rewrite lookup_delete_ne. }
  assert (filter P ((k, row) :: map_to_list (base.delete k (vacations session)))
          ≡ₚ filter P (map_to_list (vacations session))) as Hdel.
  { apply filter_Permutation. by apply map_to_list_delete. }
  rewrite Hins, <- Hdel.
  destruct (decide (P (k, row))) as [HP|HP].
  - rewrite !filter_cons_True by done. done.
  - rewrite !filter_cons_False by done. done.
Qed.

Lemma create_vacation_covered_witness :
  ∃ session',
    VacationService.create_vacation 7 (VacationBase.mk 21 23 Paid) sample_store
    = (Ok (next_uuid sample_store, VacationModel.mk 7 Paid 20 24), session')
    ∧ vacations session'
      = <[next_uuid sample_store := VacationModel.mk 7 Paid 20 24]>
          (base.delete 0%nat (vacations sample_store))
    ∧ ∀ e t, ranges session' e t ≡ₚ ranges sample_store e t.
Proof.
  apply (create_vacation_covered sample_store 7 employee_7 (VacationBase.mk 21 23 Paid) 0
           (VacationModel.mk 7 Paid 20 24)).
  - vm_compute. reflexivity.
  - unfold VacationBase.valid. simpl. lia.
  - unfold in_range, date_min, date_max. simpl. lia.
  - apply (bool_decide_unpack _). vm_compute. exact I.
  - apply (bool_decide_unpack _). vm_compute. exact I.
  - apply (bool_decide_unpack _). vm_compute. exact I.
  - vm_compute. reflexivity.
  - reflexivity.
  - reflexivity.
  - simpl. lia.
  - simpl. lia.
Defined.

(** A covering row that starts at [date.min] is no row the service writes;
    were it stored, re-submitting a range that starts there would raise in
    the query and leave the row in place. *)
Example create_vacation_covered_at_date_min :
  let store := set_vacations empty_store {[ 0%nat := VacationModel.mk 7 Paid date_min 5 ]} in
  VacationService.create_vacation 7 (VacationBase.mk date_min 3 Paid) store
  = (Raise OverflowError, store).
Proof. vm_compute. reflexivity. Qed.

(** ** Employees *)

(** X22. A created employee gets the next key and is what [get_employee]
    returns for it afterwards; the employees stored before and all
    vacations are unchanged, and a validated vacation with dates inside the
    range of the date arithmetic can then be created for the new employee:
    the call does not raise. *)
Theorem create_employee_get session employee_data vacation_data :
  employees session !! next_uuid session = None →
  VacationBase.valid vacation_data →
  in_range (VacationBase.start_date vacation_data) (VacationBase.end_date vacation_data) →
  ∃ session',
    EmployeeService.create_employee employee_data session
    = (Ok (next_uuid session, employee_data), session')
    ∧ EmployeeService.get_employee (next_uuid session) session'
      = (Ok (Some (next_uuid session, employee_data)), session')
    ∧ (∀ i, i ≠ next_uuid session → employees session' !! i = employees session !! i)
    ∧ vacations session' = vacations session
    ∧ ∃ v session'',
        VacationService.create_vacation (next_uuid session) vacation_data session'
        = (Ok v, session'').
Proof.
  intros Hnew Hvalid Hrange. eexists. split; [reflexivity|].
  split; [|split; [|split]].
  - unfold EmployeeService.get_employee, EmployeeRepository.get. simpl.
    by rewrite lookup_insert_eq.
  - intros i Hi. simpl. by rewrite lookup_insert_ne.
  - done.
  - rewrite (create_vacation_eq _ (next_uuid session) vacation_data employee_data);
      [|simpl; apply lookup_insert_eq|done|done].
    cbv zeta. destruct (default _ _) as [new_start new_end].
    eexists. eexists. reflexivity.
Qed.

Lemma create_employee_get_witness :
  ∃ session',
    EmployeeService.create_employee (EmployeeModel.mk "Eve" "Day") sample_store
    = (Ok (next_uuid sample_store, EmployeeModel.mk "Eve" "Day"), session')
    ∧ EmployeeService.get_employee (next_uuid sample_store) session'
      = (Ok (Some (next_uuid sample_store, EmployeeModel.mk "Eve" "Day")), session')
    ∧ (∀ i, i ≠ next_uuid sample_store →
            employees session' !! i = employees sample_store !! i)
    ∧ vacations session' = vacations sample_store
    ∧ ∃ v session'',
        VacationService.create_vacation (next_uuid sample_store)
          (VacationBase.mk 5 19 Paid) session'
        = (Ok v, session'').
Proof.
  apply (create_employee_get sample_store (EmployeeModel.mk "Eve" "Day")
           (VacationBase.mk 5 19 Paid)).
  - vm_compute. reflexivity.
  - unfold VacationBase.valid. simpl. lia.
  - unfold in_range, date_min, date_max. simpl. lia.
Defined.

(** The handler that reads one employee answers with status 404 and
    the detail [Employee not found] exactly when the id is unknown, and
    returns the stored employee otherwise; the store is unchanged. *)
Theorem get_employee_route_outcome session employee_id :
  EmployeeRoutes.get_employee employee_id session
  = match employees session !! employee_id with
    | Some employee => (Returned (employee_id, employee), session)
    | None => (Failed (HTTPException 404 "Employee not found"), session)
    end.
Proof.
  unfold EmployeeRoutes.get_employee, EmployeeService.get_employee, EmployeeRepository.get.
  by destruct (employees session !! employee_id).
Qed.
